(** * pdf-to-md: layout-to-structure inference of [main.py]

    A shallow embedding of [determine_font_styles], [is_list_item] and the
    page/block loop of [convert_pdf_to_markdown], and the properties of the
    specification that are stated about them.

    Modelling conventions.
    - A Python [str] is a list of Unicode code points ([text]); [str "..."]
      turns an ASCII literal into one.
    - The decoder's dictionaries are records whose fields are optional: a
      field that is [None] is a key the dictionary does not have.  Indexing
      [d['k']] raises [KeyError] on such a field, [d.get('k', v)] yields [v].
    - Python floats (font sizes, bounding boxes) are read as the rationals
      they denote; [round] is Python's round-half-to-even.  Two float
      operations are not reproduced bit for bit.  The quotient
      [total_size / span_count] of the block average is taken exactly; its
      rounding differs from that of the float quotient only once
      [total_size] exceeds 2^52.  The subtraction and the product by [0.7]
      of the vertical-gap test are taken exactly, with 7/10 for [0.7]; the
      outcome can differ from the float test when the gap is at the
      threshold.  The test is kept behind the name [gap_significant]: the
      proofs about the control flow use only its truth value.
    - [page.get_text] is the external decoder.  A page is given by the two
      block lists its two calls return (unsorted, and sorted in reading
      order); decoder exceptions are outside the model.
    - The document-level post-processing (join, newline collapsing, file
      output) is not part of the embedding: the result of a run is the
      fragment list [markdown_output]. *)

From Stdlib Require Import ZArith QArith Qround String Ascii DecimalString Lia Lqa.
From stdpp Require Import base option list sorting gmap.

Local Open Scope Z_scope.

(** ** Python values *)

Abbreviation char := N.
Abbreviation text := (list N).

Definition str (s : string) : text := map N_of_ascii (list_ascii_of_string s).
Arguments str s%_string.

Inductive exn :=
  | KeyError (key : text)
  | IndexError.

Inductive result (A : Type) :=
  | Ok (a : A)
  | Raise (e : exn).
Arguments Ok {A} a.
Arguments Raise {A} e.

Definition bind {A B} (k : A -> result B) (r : result A) : result B :=
  match r with
  | Ok a => k a
  | Raise e => Raise e
  end.

#[global] Instance result_bind : MBind result := @bind.
#[global] Instance result_ret : MRet result := @Ok.

Fixpoint foldM {A B} (f : A -> B -> result A) (l : list B) (a : A) : result A :=
  match l with
  | [] => Ok a
  | x :: l' => a' ← f a x; foldM f l' a'
  end.

(** [d[key]] *)
Definition getitem {A} (field : option A) (key : text) : result A :=
  match field with
  | Some v => Ok v
  | None => Raise (KeyError key)
  end.

(** [l[-1]] *)
Definition last_item {A} (l : list A) : result A :=
  match last l with
  | Some v => Ok v
  | None => Raise IndexError
  end.

(** [d.get(key, dflt)] *)
Definition get {A} (field : option A) (dflt : A) : A :=
  match field with
  | Some v => v
  | None => dflt
  end.

(** [str.isspace] on one code point: the Unicode white-space characters. *)
Definition isspace (c : char) : bool :=
  ((9 <=? c) && (c <=? 13) || (28 <=? c) && (c <=? 32) || (c =? 133) || (c =? 160)
   || (c =? 5760) || (8192 <=? c) && (c <=? 8202) || (c =? 8232) || (c =? 8233)
   || (c =? 8239) || (c =? 8287) || (c =? 12288))%N.

Fixpoint lstrip (s : text) : text :=
  match s with
  | [] => []
  | c :: s' => if isspace c then lstrip s' else s
  end.

Definition rstrip (s : text) : text := rev (lstrip (rev s)).

Definition strip (s : text) : text := rstrip (lstrip s).

Fixpoint startswith (s prefix : text) : bool :=
  match prefix, s with
  | [], _ => true
  | p :: prefix', c :: s' => (c =? p)%N && startswith s' prefix'
  | _ :: _, [] => false
  end.

Definition endswith (s suffix : text) : bool := startswith (rev s) (rev suffix).

(** [round(x)] with one argument: nearest integer, ties to the even one. *)
Definition py_round (x : Q) : Z :=
  let f := Qfloor x in
  match (x - inject_Z f ?= 1 # 2)%Q with
  | Lt => f
  | Gt => f + 1
  | Eq => if Z.even f then f else f + 1
  end.

(** ** The decoder's data *)

Record span := Span {
  span_text : option text;
  span_size : option Q;
  span_flags : option Z }.

Record line := Line { line_spans : option (list span) }.

Record bbox := BBox { x0 : Q; y0 : Q; x1 : Q; y1 : Q }.

Record block := Block {
  block_type : option Z;
  block_lines : option (list line);
  block_bbox : option bbox }.

Record page := Page {
  get_text : list block;
  get_text_sorted : list block }.

(** ** [collections.Counter], in insertion order *)

Abbreviation counter := (list (Z * nat)).

(** [c[k] += w] *)
Fixpoint counter_add (c : counter) (k : Z) (w : nat) : counter :=
  match c with
  | [] => [(k, w)]
  | (k', n) :: c' =>
      if k =? k' then (k', (n + w)%nat) :: c' else (k', n) :: counter_add c' k w
  end.

(** [max(c.items(), key=itemgetter(1))]: the first item of largest count *)
Definition first_max (best : option (Z * nat)) (kv : Z * nat) : option (Z * nat) :=
  match best with
  | None => Some kv
  | Some b => if (b.2 <? kv.2)%nat then Some kv else Some b
  end.

(** [c.most_common(1)] as an optional item *)
Definition most_common1 (c : counter) : option (Z * nat) :=
  fold_left first_max c None.

(** [statistics.mode]: the first of the most frequent values *)
Definition mode (l : list Z) : option Z :=
  fst <$> most_common1 (fold_left (fun c s => counter_add c s 1%nat) l []).

(** ** Style profiler: [determine_font_styles] *)

(** First loop: [all_sizes]; the [styles] counter it also fills is never
    read, only the field accesses that feed it are kept. *)
Definition sizes_span (all_sizes : list Z) (sp : span) : result (list Z) :=
  size ← getitem (span_size sp) (str "size");
  _flags ← getitem (span_flags sp) (str "flags");
  _text ← getitem (span_text sp) (str "text");
  Ok (all_sizes ++ [py_round size]).

Definition sizes_line (all_sizes : list Z) (ln : line) : result (list Z) :=
  spans ← getitem (line_spans ln) (str "spans");
  foldM sizes_span spans all_sizes.

Definition sizes_block (all_sizes : list Z) (b : block) : result (list Z) :=
  ty ← getitem (block_type b) (str "type");
  if ty =? 0 then
    lines ← getitem (block_lines b) (str "lines");
    foldM sizes_line lines all_sizes
  else Ok all_sizes.

(** Second loop: [size_counts], weighted by stripped text length. *)
Definition count_span (size_counts : counter) (sp : span) : result counter :=
  size ← getitem (span_size sp) (str "size");
  txt ← getitem (span_text sp) (str "text");
  Ok (counter_add size_counts (py_round size) (length (strip txt))).

Definition count_line (size_counts : counter) (ln : line) : result counter :=
  spans ← getitem (line_spans ln) (str "spans");
  foldM count_span spans size_counts.

Definition count_block (size_counts : counter) (b : block) : result counter :=
  ty ← getitem (block_type b) (str "type");
  if ty =? 0 then
    lines ← getitem (block_lines b) (str "lines");
    foldM count_line lines size_counts
  else Ok size_counts.

Definition is_nil {A} (l : list A) : bool :=
  match l with [] => true | _ => false end.

Definition body_of_counts (size_counts : counter) (all_sizes : list Z) : Z :=
  let body_size := fst <$> most_common1 size_counts in
  match body_size with
  | Some b => b
  | None => match mode all_sizes with Some m => m | None => 10 end
  end.

Definition heading_candidates (all_sizes : list Z) (body_size : Z) : list Z :=
  merge_sort Z.ge (filter (fun s => body_size + 1 < s) (remove_dups all_sizes)).

Fixpoint assign_levels (candidates : list Z) (level : nat)
    (heading_levels : gmap Z nat) : gmap Z nat :=
  match candidates with
  | [] => heading_levels
  | size :: rest =>
      if (level <=? 3)%nat
      then assign_levels rest (S level) (<[size := level]> heading_levels)
      else heading_levels
  end.

Definition determine_font_styles (p : page) : result (option Z * gmap Z nat) :=
  let text_blocks := get_text p in
  if is_nil text_blocks then Ok (None, ∅) else
  all_sizes ← foldM sizes_block text_blocks [];
  if is_nil all_sizes then Ok (None, ∅) else
  size_counts ← foldM count_block text_blocks [];
  if is_nil size_counts then Ok (None, ∅) else
  let body_size := body_of_counts size_counts all_sizes in
  let heading_levels := assign_levels (heading_candidates all_sizes body_size) 1 ∅ in
  Ok (Some body_size, heading_levels).

(** ** List-item test: [is_list_item] *)

(** The pattern is [^\s*([\*\-\+•]|\d+\.|[a-zA-Z]\.)\s+].  Its three
    alternatives start with characters of disjoint classes, none of them
    white space, so matching is deterministic: skip the leading white space,
    read one marker, require one white-space character.  On a [str] pattern
    [\s] is the white space of [str.isspace] and [\d] is every Unicode
    decimal digit. *)

Definition is_bullet (c : char) : bool :=
  ((c =? 42) || (c =? 45) || (c =? 43) || (c =? 8226))%N.

(** The decimal digits (general category Nd, Unicode 14.0) come in 66 runs of
    ten consecutive code points, zero to nine; these are the zeros. *)
Definition digit_zeros : list N :=
  [48; 1632; 1776; 1984; 2406; 2534; 2662; 2790;
   2918; 3046; 3174; 3302; 3430; 3558; 3664; 3792;
   3872; 4160; 4240; 6112; 6160; 6470; 6608; 6784;
   6800; 6992; 7088; 7232; 7248; 42528; 43216; 43264;
   43472; 43504; 43600; 44016; 65296; 66720; 68912; 69734;
   69872; 69942; 70096; 70384; 70736; 70864; 71248; 71360;
   71472; 71904; 72016; 72784; 73040; 73120; 92768; 92864;
   93008; 120782; 120792; 120802; 120812; 120822; 123200; 123632;
   125264; 130032]%N.

(** [str.isdecimal] on one code point, the class [\d] of the pattern. *)
Definition isdecimal (c : char) : bool :=
  existsb (fun z => (z <=? c) && (c <=? z + 9))%N digit_zeros.

Definition is_letter (c : char) : bool :=
  ((97 <=? c) && (c <=? 122) || (65 <=? c) && (c <=? 90))%N.

Fixpoint skip_digits (s : text) : text :=
  match s with
  | [] => []
  | c :: s' => if isdecimal c then skip_digits s' else s
  end.

Definition after_dot (s : text) : option text :=
  match s with
  | c :: s' => if (c =? 46)%N then Some s' else None
  | [] => None
  end.

(** The text after the marker group, when the group matches at the head. *)
Definition match_marker (s : text) : option text :=
  match s with
  | [] => None
  | c :: s' =>
      if is_bullet c then Some s'
      else if isdecimal c then after_dot (skip_digits s')
      else if is_letter c then after_dot s'
      else None
  end.

Definition is_list_item (t : text) : bool :=
  match match_marker (lstrip t) with
  | Some (c :: _) => isspace c
  | _ => false
  end.

(** ** Block classifier and assembler: the loops of [convert_pdf_to_markdown] *)

Definition nl : text := [10%N].

(** One entry of [line_text_parts]. *)
Record part := Part {
  part_text : text;
  part_size : Z;
  part_bold : bool }.

Record state := State {
  markdown_output : list text;
  current_paragraph : text;
  last_block_bottom : Q }.

Definition append_fragment (st : state) (fragment : text) : state :=
  State (markdown_output st ++ [fragment]) (current_paragraph st) (last_block_bottom st).

(** [if current_paragraph: markdown_output.append(current_paragraph.strip() + "\n");
    current_paragraph = ""] *)
Definition flush_paragraph (st : state) : state :=
  if is_nil (current_paragraph st) then st
  else State (markdown_output st ++ [strip (current_paragraph st) ++ nl]) []
             (last_block_bottom st).

(** The per-block accumulators of lines 138-160. *)
Record collected := Collected {
  block_text_lines : list (list part);
  total_size : Z;
  span_count : Z }.

(** The dictionary appended to [line_text_parts] for one span. *)
Definition make_part (body_size : Z) (sp : span) : part :=
  let txt := get (span_text sp) [] in
  let size := py_round (get (span_size sp) (inject_Z body_size)) in
  let flags := get (span_flags sp) 0 in
  Part txt size (0 <? Z.land flags (2 ^ 4)).

Definition collect_span (body_size : Z) (acc : list part * Z * Z) (sp : span)
    : list part * Z * Z :=
  let '(line_text_parts, total_size, span_count) := acc in
  let p := make_part body_size sp in
  (line_text_parts ++ [p],
   total_size + part_size p * Z.of_nat (length (part_text p)),
   span_count + Z.of_nat (length (part_text p))).

Definition collect_line (body_size : Z) (acc : collected) (ln : line) : collected :=
  let '(line_text_parts, total_size, span_count) :=
    fold_left (collect_span body_size) (get (line_spans ln) [])
              ([], total_size acc, span_count acc) in
  Collected (block_text_lines acc ++ [line_text_parts]) total_size span_count.

Definition collect_block (body_size : Z) (b : block) : collected :=
  fold_left (collect_line body_size) (get (block_lines b) []) (Collected [] 0 0).

Definition block_avg_size (body_size : Z) (c : collected) : Z :=
  if 0 <? span_count c
  then py_round (inject_Z (total_size c) / inject_Z (span_count c))
  else body_size.

(** [block_top - last_block_bottom > body_size * 0.7] *)
Definition gap_significant (block_top last_bottom : Q) (body_size : Z) : bool :=
  negb (Qle_bool (block_top - last_bottom) (inject_Z body_size * (7 # 10))).

Definition zero_bbox : bbox := BBox 0 0 0 0.

(** Lines 174-181. [markdown_output[-1]] raises on an empty list. *)
Definition paragraph_spacing (page_num i : nat) (body_size : Z) (b : block)
    (st : state) : result state :=
  let block_top := y0 (get (block_bbox b) zero_bbox) in
  if (0 <? page_num)%nat || (0 <? i)%nat then
    if gap_significant block_top (last_block_bottom st) body_size then
      prev ← last_item (markdown_output st);
      if negb (is_nil prev)
      then Ok (append_fragment (flush_paragraph st) [])
      else Ok st
    else Ok st
  else Ok st.

Definition heading_text (lines : list (list part)) : text :=
  strip (concat (map part_text (concat lines))).

Definition heading_fragment (level : nat) (heading : text) : text :=
  replicate level 35%N ++ str " " ++ heading ++ nl.

(** Lines 205-215. *)
Definition bold_step (processed_line : text) (p : part) : text :=
  let txt := part_text p in
  if part_bold p then
    if negb (endswith processed_line (str "**")) && negb (startswith txt (str "**"))
    then processed_line ++ str "**" ++ txt ++ str "**"
    else processed_line ++ txt
  else processed_line ++ txt.

Definition processed_line (line_parts : list part) : text :=
  fold_left bold_step line_parts [].

Definition line_text_raw (line_parts : list part) : text :=
  concat (map part_text line_parts).

(** Lines 201-228, one line of a block that is not a heading. *)
Definition assemble_line (st : state) (line_parts : list part) : state :=
  let raw := line_text_raw line_parts in
  let processed := processed_line line_parts in
  if is_list_item raw then
    append_fragment (flush_paragraph st) (strip processed ++ nl)
  else if negb (is_nil (strip raw)) then
    let cp := current_paragraph st in
    let cp := if negb (is_nil cp) && negb (endswith cp nl) then cp ++ str " " else cp in
    State (markdown_output st) (cp ++ strip processed) (last_block_bottom st)
  else st.

(** Lines 183-230: heading detection, else list detection and paragraph
    assembly. *)
Definition classify_block (heading_levels : gmap Z nat) (avg : Z)
    (lines : list (list part)) (st : state) : state :=
  let heading :=
    match heading_levels !! avg with
    | Some level =>
        let h := heading_text lines in
        if negb (is_nil h) then Some (heading_fragment level h) else None
    | None => None
    end in
  match heading with
  | Some fragment => append_fragment (flush_paragraph st) fragment
  | None => fold_left assemble_line lines st
  end.

Definition is_text_block (b : block) : bool :=
  match block_type b with
  | Some ty => ty =? 0
  | None => false
  end.

(** Lines 138-166 and 183-233: what a text block does once the spacing test
    is behind it. *)
Definition emit_block (body_size : Z) (heading_levels : gmap Z nat) (b : block)
    (st : state) : state :=
  let c := collect_block body_size b in
  let avg := block_avg_size body_size c in
  let block_bottom := y1 (get (block_bbox b) zero_bbox) in
  let st := classify_block heading_levels avg (block_text_lines c) st in
  State (markdown_output st) (current_paragraph st) block_bottom.

(** The body of the loop over [enumerate(blocks)]. *)
Definition process_block (page_num : nat) (body_size : Z)
    (heading_levels : gmap Z nat) (st : state) (ib : nat * block) : result state :=
  let '(i, b) := ib in
  if negb (is_text_block b) then Ok st else
  st ← paragraph_spacing page_num i body_size b st;
  Ok (emit_block body_size heading_levels b st).

Definition enumerate {A} (l : list A) : list (nat * A) := zip (seq 0 (length l)) l.

Definition decimal (n : nat) : text := str (NilEmpty.string_of_uint (Nat.to_uint n)).

Definition page_marker (page_num : nat) : text :=
  nl ++ str "<!-- Page " ++ decimal (page_num + 1) ++ str " -->" ++ nl.

(** The body of the loop over the pages. *)
Definition process_page (st : state) (np : nat * page) : result state :=
  let '(page_num, p) := np in
  '(body_size, heading_levels) ← determine_font_styles p;
  match body_size with
  | None => Ok st
  | Some body_size =>
      let st := State (markdown_output st ++ [page_marker page_num]) []
                      (last_block_bottom st) in
      st ← foldM (process_block page_num body_size heading_levels)
                 (enumerate (get_text_sorted p)) st;
      Ok (flush_paragraph st)
  end.

Definition initial_state : state := State [] [] 0.

Definition run (doc : list page) : result state :=
  foldM process_page (enumerate doc) initial_state.

(** The fragment list a run leaves in [markdown_output]. *)
Definition convert_pdf_to_markdown (doc : list page) : result (list text) :=
  st ← run doc;
  Ok (markdown_output st).

(** ** Post-processing: lines 241-244 *)

(** [sep.join(l)] *)
Fixpoint join (sep : text) (l : list text) : text :=
  match l with
  | [] => []
  | x :: l' =>
      match l' with
      | [] => x
      | _ :: _ => x ++ sep ++ join sep l'
      end
  end.

(** [re.sub(r'\n{3,}', '\n\n', s)].  The pattern is greedy, so each match is a
    whole run of three or more newlines and what replaces it is two of them:
    of every run of newlines the first two are copied and the others dropped.
    [n] is the number of newlines copied from the run being read. *)
Fixpoint collapse_from (n : nat) (s : text) : text :=
  match s with
  | [] => []
  | c :: s' =>
      if (c =? 10)%N then
        if (n <? 2)%nat then c :: collapse_from (S n) s' else collapse_from n s'
      else c :: collapse_from 0 s'
  end.

Definition collapse_newlines (s : text) : text := collapse_from 0 s.

(** [final_markdown] as written to the file. *)
Definition final_markdown (markdown_output : list text) : text :=
  strip (collapse_newlines (join nl markdown_output)).

(** ** Reference notions for the statements *)

(** The spans of the text blocks of a block list, in document order. *)
Definition text_spans (bs : list block) : list span :=
  concat (map (fun b => concat (map (fun ln => get (line_spans ln) [])
                                    (get (block_lines b) [])))
              (filter (fun b => is_text_block b = true) bs)).

Definition rounded_size (sp : span) : Z := py_round (get (span_size sp) 0%Q).

Definition stripped_length (sp : span) : nat := length (strip (get (span_text sp) [])).

(** The rounded sizes of all spans, one entry per span. *)
Definition span_sizes (bs : list block) : list Z := map rounded_size (text_spans bs).

(** The number of stripped characters set in size [s]. *)
Definition weight (bs : list block) (s : Z) : nat :=
  sum_list (map stripped_length (filter (fun sp => rounded_size sp = s) (text_spans bs))).

(** Every key the profiler indexes is present. *)
Definition span_ok (sp : span) : bool :=
  bool_decide (is_Some (span_size sp)) && bool_decide (is_Some (span_flags sp))
  && bool_decide (is_Some (span_text sp)).

Definition line_ok (ln : line) : bool :=
  match line_spans ln with
  | Some spans => forallb span_ok spans
  | None => false
  end.

Definition block_ok (b : block) : bool :=
  match block_type b with
  | Some ty =>
      if ty =? 0 then
        match block_lines b with
        | Some lines => forallb line_ok lines
        | None => false
        end
      else true
  | None => false
  end.

Definition well_formed (bs : list block) : bool := forallb block_ok bs.

(** The frequency table of the specification: one entry per rounded size,
    holding the stripped character count accumulated over the spans. *)
Definition add_span (c : counter) (sp : span) : counter :=
  counter_add c (rounded_size sp) (stripped_length sp).

Definition spec_weight_table (bs : list block) : counter :=
  fold_left add_span (text_spans bs) [].

(** The body size in the specification's words: the size of highest
    accumulated weight; the mode of the raw sizes when the table is empty;
    10 when there is no size at all. *)
Definition spec_body_size (bs : list block) : Z :=
  match most_common1 (spec_weight_table bs) with
  | Some (s, _) => s
  | None =>
      match mode (span_sizes bs) with
      | Some m => m
      | None => 10
      end
  end.

(** What the profiler returns when it returns. *)
Definition profile (bs : list block) : option Z * gmap Z nat :=
  if is_nil (text_spans bs) then (None, ∅)
  else (Some (spec_body_size bs),
        assign_levels (heading_candidates (span_sizes bs) (spec_body_size bs)) 1 ∅).

(** The count a counter holds for a key. *)
Definition count_of (c : counter) (k : Z) : nat :=
  sum_list (map snd (filter (fun kv => kv.1 = k) c)).

(** The spans of one block, line after line. *)
Definition block_spans (b : block) : list span :=
  concat (map (fun ln => get (line_spans ln) []) (get (block_lines b) [])).

Definition raw_length (sp : span) : nat := length (get (span_text sp) []).

Definition Zsum (l : list Z) : Z := foldr Z.add 0 l.

(** The average size of a block, the characters of a span being counted by
    [len]: the rounded quotient of the sum of size times character count by
    the number of characters, and the body size when there is no character.
    A span without a size counts with the body size. *)
Definition weighted_average (len : span -> nat) (body_size : Z) (b : block) : Z :=
  let spans := block_spans b in
  let size sp := py_round (get (span_size sp) (inject_Z body_size)) in
  let chars := Zsum (map (fun sp => Z.of_nat (len sp)) spans) in
  let total := Zsum (map (fun sp => size sp * Z.of_nat (len sp)) spans) in
  if 0 <? chars then py_round (inject_Z total / inject_Z chars) else body_size.

(** The average of the specification: characters counted after stripping. *)
Definition spec_block_avg_size : Z -> block -> Z := weighted_average stripped_length.

(** The fragments a flush appends: the stripped paragraph, if one is open. *)
Definition flushed (st : state) : list text :=
  if is_nil (current_paragraph st) then [] else [strip (current_paragraph st) ++ nl].

(** No blank fragment is followed at once by another blank fragment. *)
Definition no_double_blank (out : list text) : Prop :=
  forall i, out !! i = Some [] -> out !! S i <> Some [].

(** [st'] has the output of [st] followed by fragments that are not blank. *)
Definition extends (st st' : state) : Prop :=
  exists content,
    markdown_output st' = markdown_output st ++ content /\
    Forall (fun fragment => fragment <> []) content.

(** Bold reassembly in the words of the specification: a bold span is wrapped
    unless the text emitted so far ends with the marker and the span's text
    does not begin with it. *)
Definition spec_bold_step (processed_line : text) (p : part) : text :=
  let txt := part_text p in
  if part_bold p then
    if endswith processed_line (str "**") && negb (startswith txt (str "**"))
    then processed_line ++ txt
    else processed_line ++ str "**" ++ txt ++ str "**"
  else processed_line ++ txt.

(** The three character classes of the marker group, as sets. *)
Definition bullet_char (c : char) : Prop :=
  (c = 42 \/ c = 45 \/ c = 43 \/ c = 8226)%N.

Definition ascii_letter (c : char) : Prop :=
  (97 <= c <= 122 \/ 65 <= c <= 90)%N.

Definition decimal_digit (c : char) : Prop :=
  exists z, In z digit_zeros /\ (z <= c <= z + 9)%N.

(** The marker group of the list-item pattern, as a set of texts: one of the
    four bullets, or one or more decimal digits and a dot, or one letter and
    a dot. *)
Definition is_marker (m : text) : Prop :=
  (exists c, bullet_char c /\ m = [c]) \/
  (exists d ds, Forall decimal_digit (d :: ds) /\ m = d :: ds ++ [46%N]) \/
  (exists c, ascii_letter c /\ m = [c; 46%N]).

(** A fragment as the loops emit them: blank, or ended by a newline. *)
Definition fragment_ok (fragment : text) : Prop :=
  fragment = [] \/ last fragment = Some 10%N.

(** [st'] has the output of [st] followed by well-formed fragments. *)
Definition grows (st st' : state) : Prop :=
  exists content,
    markdown_output st' = markdown_output st ++ content /\
    Forall fragment_ok content.

(** The keys [determine_font_styles] indexes. *)
Definition profiler_keys : list text :=
  [str "type"; str "lines"; str "spans"; str "size"; str "flags"; str "text"].

(** ** Sample inputs *)

Definition mk_span (t : string) (size : Q) (flags : Z) : span :=
  Span (Some (str t)) (Some size) (Some flags).

Definition mk_block (lines : list (list span)) (top bottom : Q) : block :=
  Block (Some 0) (Some (map (fun spans => Line (Some spans)) lines))
        (Some (BBox 0 top 100 bottom)).

Definition mk_page (bs : list block) : page := Page bs bs.

(** A title, a paragraph in 10.5pt and three larger sizes besides the title. *)
Definition sample_page : page :=
  mk_page
    [mk_block [[mk_span "Title" 24 16]] 0 30;
     mk_block [[mk_span "Hello world, this is body" (21 # 2) 0];
               [mk_span "Sub" 18 0; mk_span " x " 14 0; mk_span "yy" 13 0]] 40 60].

(** A one-character span in 10pt followed by three blanks in 20pt. *)
Definition padded_block : block :=
  mk_block [[mk_span "a" 10 0; mk_span "   " 20 0]] 0 10.

(** A paragraph, a block of blanks and a paragraph in 10pt, each 10 below the
    one before. *)
Definition spaced_blocks : list block :=
  [mk_block [[mk_span "Intro" 10 0]] 0 10;
   mk_block [[mk_span "  " 10 0]] 20 30;
   mk_block [[mk_span "World" 10 0]] 40 50].

Definition spaced_page : page := mk_page spaced_blocks.

(** The state in which the third block of [spaced_page] is reached. *)
Definition before_third_block : state :=
  State [page_marker 0; str "Intro" ++ nl; []] [] 30.

(** Three paragraphs in 10pt, each 10 below the one before. *)
Definition paragraphs_page : page :=
  mk_page
    [mk_block [[mk_span "Intro" 10 0]] 0 10;
     mk_block [[mk_span "Hello" 10 0]] 20 30;
     mk_block [[mk_span "World" 10 0]] 40 50].

(** A heading block in 24pt over a paragraph and a list item in 10pt. *)
Definition titled_page : page :=
  mk_page
    [mk_block [[mk_span "Title" 24 16]] 0 30;
     mk_block [[mk_span "Hello " 10 0; mk_span "World" 10 16];
               [mk_span "- item" 10 0];
               [mk_span "tail" 10 0]] 32 60].

(** A page whose only block is an image. *)
Definition image_page : page :=
  mk_page [Block (Some 1) None (Some (BBox 0 0 100 100))].

(** A page whose two spans hold blanks and nothing. *)
Definition blank_spans_page : page :=
  mk_page [mk_block [[mk_span "   " 12 0; mk_span "" 12 0]] 0 10].

(** A page whose single span has no ['size'] key. *)
Definition sizeless_block : block :=
  Block (Some 0) (Some [Line (Some [Span (Some (str "a")) None (Some 0)])])
        (Some (BBox 0 0 100 10)).

Definition sizeless_page : page := mk_page [sizeless_block].

(** * Properties *)

(** ** The error monad *)

Lemma bind_Ok {A B} (k : A -> result B) (r : result A) (b : B) :
  (r ≫= k) = Ok b <-> exists a, r = Ok a /\ k a = Ok b.
Proof.
  destruct r as [a|e]; simpl.
  - split; [eauto | intros (a' & [= <-] & H); exact H].
  - split; [discriminate | intros (a' & [=] & _)].
Qed.

Lemma foldM_app {A B} (f : A -> B -> result A) (l1 l2 : list B) (a : A) :
  foldM f (l1 ++ l2) a = (foldM f l1 a ≫= foldM f l2).
Proof.
  revert a; induction l1 as [|x l1 IH]; intros a; simpl; [reflexivity|].
  destruct (f a x) as [a'|e]; simpl; [apply IH | reflexivity].
Qed.

(** ** Rounding and the gap test *)

Lemma py_round_nearest (x : Q) :
  (inject_Z (py_round x) - (1 # 2) <= x <= inject_Z (py_round x) + (1 # 2))%Q.
Proof.
  unfold py_round. pose proof (Qfloor_le x) as Hlo. pose proof (Qlt_floor x) as Hhi.
  set (f := Qfloor x) in *.
  assert (inject_Z (f + 1) == inject_Z f + 1)%Q as Hf1 by (rewrite inject_Z_plus; reflexivity).
  rewrite Hf1 in Hhi.
  destruct (x - inject_Z f ?= 1 # 2)%Q eqn:E.
  - apply Qeq_alt in E. destruct (Z.even f); [|rewrite Hf1]; split; lra.
  - apply Qlt_alt in E. split; lra.
  - apply Qgt_alt in E. rewrite Hf1. split; lra.
Qed.

Lemma py_round_tie_even (x : Q) :
  (x - inject_Z (Qfloor x) == 1 # 2)%Q -> Z.even (py_round x) = true.
Proof.
  intros H. unfold py_round. apply Qeq_alt in H. rewrite H.
  destruct (Z.even (Qfloor x)) eqn:E; [exact E|].
  rewrite Z.even_add, E. reflexivity.
Qed.

Lemma py_round_integer (z : Z) : py_round (inject_Z z) = z.
Proof.
  unfold py_round. rewrite Qfloor_Z.
  assert ((inject_Z z - inject_Z z ?= 1 # 2)%Q = Lt) as ->; [|reflexivity].
  rewrite <- Qlt_alt. unfold Qlt, Qminus, Qplus, Qopp, inject_Z. simpl. lia.
Qed.

Lemma gap_significant_spec (block_top last_bottom : Q) (body_size : Z) :
  gap_significant block_top last_bottom body_size = true <->
  (inject_Z body_size * (7 # 10) < block_top - last_bottom)%Q.
Proof.
  unfold gap_significant. rewrite negb_true_iff, <- not_true_iff_false, Qle_bool_iff.
  split; [apply Qnot_le_lt | apply Qlt_not_le].
Qed.

(** ** The two loops of the profiler *)

Lemma sizes_span_Ok acc sp r :
  sizes_span acc sp = Ok r <-> span_ok sp = true /\ r = acc ++ [rounded_size sp].
Proof.
  unfold sizes_span, span_ok, rounded_size.
  destruct sp as [[t|] [z|] [f|]]; simpl; split;
    try discriminate; try (intros [[=] _]; fail).
  - intros [= <-]. split; reflexivity.
  - intros [_ ->]. reflexivity.
Qed.

Lemma foldM_sizes_span_Ok spans acc r :
  foldM sizes_span spans acc = Ok r <->
  forallb span_ok spans = true /\ r = acc ++ map rounded_size spans.
Proof.
  revert acc r; induction spans as [|sp spans IH]; intros acc r; simpl.
  - rewrite app_nil_r. split; [intros [= <-]; auto | intros [_ ->]; reflexivity].
  - rewrite bind_Ok. setoid_rewrite sizes_span_Ok. setoid_rewrite IH.
    rewrite andb_true_iff. split.
    + intros (a & [Hsp ->] & Hall & ->). rewrite <- app_assoc. auto.
    + intros ([Hsp Hall] & ->). eexists. split; [split; [exact Hsp|reflexivity]|].
      rewrite <- app_assoc. auto.
Qed.

Lemma sizes_line_Ok ln acc r :
  sizes_line acc ln = Ok r <->
  line_ok ln = true /\ r = acc ++ map rounded_size (get (line_spans ln) []).
Proof.
  unfold sizes_line, line_ok. destruct (line_spans ln) as [spans|]; simpl.
  - apply foldM_sizes_span_Ok.
  - split; [discriminate | intros [[=] _]].
Qed.

Lemma foldM_sizes_line_Ok lines acc r :
  foldM sizes_line lines acc = Ok r <->
  forallb line_ok lines = true /\
  r = acc ++ map rounded_size (concat (map (fun ln => get (line_spans ln) []) lines)).
Proof.
  revert acc r; induction lines as [|ln lines IH]; intros acc r; simpl.
  - rewrite app_nil_r. split; [intros [= <-]; auto | intros [_ ->]; reflexivity].
  - rewrite bind_Ok. setoid_rewrite sizes_line_Ok. setoid_rewrite IH.
    rewrite andb_true_iff, map_app. split.
    + intros (a & [Hln ->] & Hall & ->). rewrite <- app_assoc. auto.
    + intros ([Hln Hall] & ->). eexists. split; [split; [exact Hln|reflexivity]|].
      rewrite <- app_assoc. auto.
Qed.

Lemma text_spans_cons b bs :
  text_spans (b :: bs) =
  (if is_text_block b
   then concat (map (fun ln => get (line_spans ln) []) (get (block_lines b) []))
   else []) ++ text_spans bs.
Proof.
  unfold text_spans. rewrite filter_cons.
  destruct (is_text_block b) eqn:E; case_decide; try congruence; reflexivity.
Qed.

Lemma sizes_block_Ok b acc r :
  sizes_block acc b = Ok r <->
  block_ok b = true /\ r = acc ++ span_sizes [b].
Proof.
  unfold span_sizes. rewrite text_spans_cons. unfold text_spans at 1.
  rewrite filter_nil; simpl. rewrite app_nil_r.
  unfold sizes_block, block_ok, is_text_block.
  destruct (block_type b) as [ty|]; simpl.
  2: { split; [discriminate | intros [[=] _]]. }
  destruct (ty =? 0).
  - destruct (block_lines b) as [lines|]; simpl.
    + apply foldM_sizes_line_Ok.
    + split; [discriminate | intros [[=] _]].
  - simpl. rewrite app_nil_r. split; [intros [= <-]; auto | intros [_ ->]; reflexivity].
Qed.

Lemma span_sizes_cons b bs : span_sizes (b :: bs) = span_sizes [b] ++ span_sizes bs.
Proof.
  unfold span_sizes. rewrite !text_spans_cons. unfold text_spans at 2.
  rewrite filter_nil; simpl. rewrite app_nil_r. apply map_app.
Qed.

Lemma all_sizes_Ok bs acc r :
  foldM sizes_block bs acc = Ok r <->
  well_formed bs = true /\ r = acc ++ span_sizes bs.
Proof.
  unfold well_formed.
  revert acc r; induction bs as [|b bs IH]; intros acc r; simpl.
  - unfold span_sizes, text_spans. rewrite filter_nil; simpl. rewrite app_nil_r.
    split; [intros [= <-]; auto | intros [_ ->]; reflexivity].
  - rewrite bind_Ok. setoid_rewrite sizes_block_Ok. setoid_rewrite IH.
    rewrite andb_true_iff, (span_sizes_cons b bs). split.
    + intros (a & [Hb ->] & Hall & ->). rewrite <- app_assoc. auto.
    + intros ([Hb Hall] & ->). eexists. split; [split; [exact Hb|reflexivity]|].
      rewrite <- app_assoc. auto.
Qed.

Lemma count_span_Ok c sp :
  span_ok sp = true -> count_span c sp = Ok (add_span c sp).
Proof.
  unfold count_span, span_ok, add_span, rounded_size, stripped_length.
  destruct sp as [[t|] [z|] [f|]]; simpl; try discriminate. reflexivity.
Qed.

Lemma foldM_count_span_Ok spans c :
  forallb span_ok spans = true ->
  foldM count_span spans c = Ok (fold_left add_span spans c).
Proof.
  revert c; induction spans as [|sp spans IH]; intros c; simpl; [reflexivity|].
  rewrite andb_true_iff. intros [Hsp Hall].
  rewrite (count_span_Ok c sp Hsp). simpl. apply IH, Hall.
Qed.

Lemma count_line_Ok ln c :
  line_ok ln = true ->
  count_line c ln = Ok (fold_left add_span (get (line_spans ln) []) c).
Proof.
  unfold count_line, line_ok.
  destruct (line_spans ln) as [spans|]; [|discriminate]. simpl.
  apply foldM_count_span_Ok.
Qed.

Lemma foldM_count_line_Ok lines c :
  forallb line_ok lines = true ->
  foldM count_line lines c =
  Ok (fold_left add_span (concat (map (fun ln => get (line_spans ln) []) lines)) c).
Proof.
  revert c; induction lines as [|ln lines IH]; intros c; simpl; [reflexivity|].
  rewrite andb_true_iff. intros [Hln Hall].
  rewrite (count_line_Ok ln c Hln). simpl.
  rewrite fold_left_app. apply IH, Hall.
Qed.

Lemma count_block_Ok b c :
  block_ok b = true ->
  count_block c b = Ok (fold_left add_span (text_spans [b]) c).
Proof.
  rewrite text_spans_cons. unfold text_spans at 1. rewrite filter_nil. simpl.
  rewrite app_nil_r.
  unfold count_block, block_ok, is_text_block.
  destruct (block_type b) as [ty|]; [|discriminate]. simpl.
  destruct (ty =? 0); [|reflexivity].
  destruct (block_lines b) as [lines|]; [|discriminate]. simpl.
  apply foldM_count_line_Ok.
Qed.

Lemma text_spans_app1 b bs : text_spans (b :: bs) = text_spans [b] ++ text_spans bs.
Proof.
  rewrite !text_spans_cons. unfold text_spans at 2. rewrite filter_nil. simpl.
  rewrite app_nil_r. reflexivity.
Qed.

Lemma size_counts_Ok bs c :
  well_formed bs = true ->
  foldM count_block bs c = Ok (fold_left add_span (text_spans bs) c).
Proof.
  unfold well_formed.
  revert c; induction bs as [|b bs IH]; intros c; simpl; [reflexivity|].
  rewrite andb_true_iff. intros [Hb Hall].
  rewrite (count_block_Ok b c Hb). simpl.
  rewrite (text_spans_app1 b bs), fold_left_app. apply IH, Hall.
Qed.

(** ** Counters *)

Lemma count_of_cons kv c k :
  count_of (kv :: c) k = ((if decide (kv.1 = k) then kv.2 else 0) + count_of c k)%nat.
Proof. unfold count_of. rewrite filter_cons. case_decide; reflexivity. Qed.

Lemma count_of_add c k w k' :
  count_of (counter_add c k w) k' =
  (count_of c k' + if decide (k = k') then w else 0)%nat.
Proof.
  induction c as [|[k0 n] c IH]; simpl.
  - rewrite count_of_cons. simpl. unfold count_of. simpl. case_decide; lia.
  - destruct (Z.eqb_spec k k0) as [->|Hne]; rewrite !count_of_cons; simpl.
    + repeat case_decide; try congruence; lia.
    + rewrite IH. repeat case_decide; try congruence; lia.
Qed.

Lemma keys_add c k w k' :
  k' ∈ map fst (counter_add c k w) <-> k' = k \/ k' ∈ map fst c.
Proof.
  induction c as [|[k0 n] c IH]; simpl.
  - rewrite list_elem_of_singleton. rewrite elem_of_nil. tauto.
  - destruct (Z.eqb_spec k k0) as [->|Hne]; simpl; rewrite !elem_of_cons.
    + tauto.
    + rewrite IH. tauto.
Qed.

Lemma NoDup_keys_add c k w :
  NoDup (map fst c) -> NoDup (map fst (counter_add c k w)).
Proof.
  induction c as [|[k0 n] c IH]; simpl; intros Hnd.
  - apply NoDup_singleton.
  - apply NoDup_cons in Hnd as [Hk0 Hnd].
    destruct (Z.eqb_spec k k0) as [->|Hne]; simpl; apply NoDup_cons.
    + auto.
    + split; [|auto]. rewrite keys_add. intros [?|?]; congruence.
Qed.

Lemma counter_add_not_nil c k w : counter_add c k w <> [].
Proof. destruct c as [|[k0 n] c]; simpl; [|destruct (k =? k0)]; discriminate. Qed.

Lemma count_of_fold spans c k :
  count_of (fold_left add_span spans c) k =
  (count_of c k +
   sum_list (map stripped_length (filter (fun sp => rounded_size sp = k) spans)))%nat.
Proof.
  revert c; induction spans as [|sp spans IH]; intros c; simpl.
  - lia.
  - rewrite IH. unfold add_span. rewrite count_of_add, filter_cons.
    case_decide; simpl; lia.
Qed.

Lemma keys_fold spans c k :
  k ∈ map fst (fold_left add_span spans c) <->
  k ∈ map fst c \/ k ∈ map rounded_size spans.
Proof.
  revert c; induction spans as [|sp spans IH]; intros c; simpl.
  - rewrite elem_of_nil. tauto.
  - rewrite IH. unfold add_span. rewrite keys_add, elem_of_cons. tauto.
Qed.

Lemma NoDup_keys_fold spans c :
  NoDup (map fst c) -> NoDup (map fst (fold_left add_span spans c)).
Proof.
  revert c; induction spans as [|sp spans IH]; intros c Hnd; simpl; [exact Hnd|].
  apply IH, NoDup_keys_add, Hnd.
Qed.

Lemma fold_add_span_not_nil spans c :
  spans <> [] \/ c <> [] -> fold_left add_span spans c <> [].
Proof.
  revert c; induction spans as [|sp spans IH]; intros c; simpl.
  - intros [?|?]; congruence.
  - intros _. apply IH. right. apply counter_add_not_nil.
Qed.

Lemma count_of_absent c k : k ∉ map fst c -> count_of c k = 0%nat.
Proof.
  induction c as [|[k0 n0] c IH]; simpl; intros Hk; [reflexivity|].
  rewrite count_of_cons. simpl. apply not_elem_of_cons in Hk as [Hne Hk].
  rewrite decide_False by congruence. simpl. auto.
Qed.

Lemma count_of_NoDup c k n :
  NoDup (map fst c) -> (k, n) ∈ c -> count_of c k = n.
Proof.
  induction c as [|[k0 n0] c IH]; simpl; intros Hnd Hin.
  - apply elem_of_nil in Hin as [].
  - apply NoDup_cons in Hnd as [Hk0 Hnd]. rewrite count_of_cons. simpl.
    apply elem_of_cons in Hin as [[= -> ->]|Hin].
    + rewrite decide_True by reflexivity.
      rewrite (count_of_absent c k0 Hk0). lia.
    + rewrite decide_False.
      * simpl. auto.
      * intros ->. apply Hk0. apply list_elem_of_fmap. exists (k, n). auto.
Qed.

Lemma fold_first_max_spec c best :
  match fold_left first_max c best with
  | Some m =>
      (Some m = best \/ m ∈ c) /\
      (forall b, best = Some b -> (b.2 <= m.2)%nat) /\
      (forall kv, kv ∈ c -> (kv.2 <= m.2)%nat)
  | None => best = None /\ c = []
  end.
Proof.
  revert best; induction c as [|kv c IH]; intros best; simpl.
  - destruct best as [b|]; [|auto]. split; [auto|]. split.
    + intros b' [= <-]. lia.
    + intros kv Hin. apply elem_of_nil in Hin as [].
  - specialize (IH (first_max best kv)).
    destruct (fold_left first_max c (first_max best kv)) as [m|].
    + destruct IH as (Hm & Hbest & Hall).
      unfold first_max in Hm, Hbest. split; [|split].
      * destruct best as [b|].
        -- destruct (b.2 <? kv.2)%nat; destruct Hm as [[= ->]|Hm];
             rewrite ?elem_of_cons; auto.
        -- destruct Hm as [[= ->]|Hm]; rewrite ?elem_of_cons; auto.
      * intros b ->. destruct (Nat.ltb_spec b.2 kv.2).
        -- specialize (Hbest kv eq_refl). lia.
        -- apply (Hbest b eq_refl).
      * intros kv' Hin. apply elem_of_cons in Hin as [->|Hin]; [|auto].
        destruct best as [b|].
        -- destruct (Nat.ltb_spec b.2 kv.2).
           ++ apply (Hbest kv eq_refl).
           ++ specialize (Hbest b eq_refl). lia.
        -- apply (Hbest kv eq_refl).
    + destruct IH as [Hnone _]. unfold first_max in Hnone.
      destruct best as [b|]; [destruct (b.2 <? kv.2)%nat|]; discriminate.
Qed.

Lemma most_common1_spec c :
  c <> [] ->
  exists m, most_common1 c = Some m /\ m ∈ c /\ forall kv, kv ∈ c -> (kv.2 <= m.2)%nat.
Proof.
  intros Hne. unfold most_common1.
  pose proof (fold_first_max_spec c None) as H.
  destruct (fold_left first_max c None) as [m|].
  - destruct H as ([?|Hin] & _ & Hall); [discriminate|]. eauto.
  - destruct H as [_ ->]. congruence.
Qed.

(** ** The profiler as a function of the spans *)

Lemma spec_weight_table_not_nil bs : text_spans bs <> [] -> spec_weight_table bs <> [].
Proof. intros H. apply (fold_add_span_not_nil (text_spans bs) []). auto. Qed.

Lemma body_of_counts_spec bs :
  body_of_counts (spec_weight_table bs) (span_sizes bs) = spec_body_size bs.
Proof.
  unfold body_of_counts, spec_body_size.
  destruct (most_common1 (spec_weight_table bs)) as [[s n]|]; reflexivity.
Qed.

Lemma is_nil_map {A B} (f : A -> B) (l : list A) : is_nil (map f l) = is_nil l.
Proof. destruct l; reflexivity. Qed.

Lemma is_nil_false {A} (l : list A) : l <> [] -> is_nil l = false.
Proof. destruct l; [congruence | reflexivity]. Qed.

Lemma is_nil_weight_table bs : is_nil (spec_weight_table bs) = is_nil (text_spans bs).
Proof.
  destruct (text_spans bs) as [|sp0 spans] eqn:Hspans.
  - unfold spec_weight_table. rewrite Hspans. reflexivity.
  - apply is_nil_false, spec_weight_table_not_nil. rewrite Hspans. discriminate.
Qed.

Lemma determine_font_styles_wf p :
  well_formed (get_text p) = true ->
  determine_font_styles p = Ok (profile (get_text p)).
Proof.
  intros Hwf. unfold determine_font_styles, profile.
  destruct (is_nil (get_text p)) eqn:Hblocks.
  { destruct (get_text p); [reflexivity | discriminate]. }
  rewrite (proj2 (all_sizes_Ok (get_text p) [] (span_sizes (get_text p))))
    by (split; [exact Hwf | reflexivity]).
  cbn [mbind result_bind bind].
  unfold span_sizes at 1. rewrite is_nil_map.
  destruct (is_nil (text_spans (get_text p))) eqn:Hspans; [reflexivity|].
  rewrite (size_counts_Ok _ [] Hwf). cbn [mbind result_bind bind].
  fold (spec_weight_table (get_text p)).
  rewrite is_nil_weight_table, Hspans, body_of_counts_spec. reflexivity.
Qed.

Lemma determine_font_styles_Ok p r :
  determine_font_styles p = Ok r <->
  well_formed (get_text p) = true /\ r = profile (get_text p).
Proof.
  split.
  - intros H. assert (well_formed (get_text p) = true) as Hwf.
    { unfold determine_font_styles in H.
      destruct (get_text p) as [|b bs] eqn:Hbs; [reflexivity|].
      cbn [is_nil] in H. apply bind_Ok in H as (sizes & Hsizes & _).
      apply all_sizes_Ok in Hsizes as [Hwf _]. exact Hwf. }
    rewrite (determine_font_styles_wf p Hwf) in H. injection H as <-. auto.
  - intros [Hwf ->]. apply determine_font_styles_wf, Hwf.
Qed.

(** ** Body size *)

Lemma weight_count_of bs s : weight bs s = count_of (spec_weight_table bs) s.
Proof. unfold weight, spec_weight_table. rewrite count_of_fold. reflexivity. Qed.

Lemma NoDup_weight_table bs : NoDup (map fst (spec_weight_table bs)).
Proof. apply NoDup_keys_fold. simpl. apply NoDup_nil_2. Qed.

Lemma keys_weight_table bs s : s ∈ map fst (spec_weight_table bs) <-> s ∈ span_sizes bs.
Proof.
  unfold spec_weight_table, span_sizes. rewrite keys_fold. simpl.
  rewrite elem_of_nil. tauto.
Qed.

Lemma spec_body_size_heaviest bs :
  text_spans bs <> [] ->
  spec_body_size bs ∈ span_sizes bs /\
  forall s, (weight bs s <= weight bs (spec_body_size bs))%nat.
Proof.
  intros Hne. apply spec_weight_table_not_nil in Hne.
  destruct (most_common1_spec _ Hne) as ([b n] & Hm & Hin & Hmax).
  unfold spec_body_size. rewrite Hm.
  pose proof (NoDup_weight_table bs) as Hnd. split.
  - apply keys_weight_table. apply list_elem_of_fmap. exists (b, n). auto.
  - intros s. rewrite !weight_count_of.
    rewrite (count_of_NoDup _ b n Hnd Hin).
    destruct (decide (s ∈ map fst (spec_weight_table bs))) as [Hs|Hs].
    + apply list_elem_of_fmap in Hs as ([s' n'] & -> & Hs). simpl.
      rewrite (count_of_NoDup _ s' n' Hnd Hs). apply (Hmax _ Hs).
    + rewrite (count_of_absent _ s Hs). lia.
Qed.

(** C1. On a page whose text blocks hold at least one span (and whose
    dictionaries have the keys the profiler indexes), the profiler returns a
    body size; it is the rounded size of some span and no size has a larger
    weight, the weight of a size being the stripped character count of the
    spans set in it.  The weighted table is then not empty, so the fallback
    to the mode of the raw sizes and to 10, which [spec_body_size] spells
    out, is never taken. *)
Theorem body_size_is_heaviest_size (p : page) :
  well_formed (get_text p) = true ->
  text_spans (get_text p) <> [] ->
  exists body hl,
    determine_font_styles p = Ok (Some body, hl) /\
    body = spec_body_size (get_text p) /\
    spec_weight_table (get_text p) <> [] /\
    body ∈ span_sizes (get_text p) /\
    forall s, (weight (get_text p) s <= weight (get_text p) body)%nat.
Proof.
  intros Hwf Hne.
  exists (spec_body_size (get_text p)),
    (assign_levels (heading_candidates (span_sizes (get_text p))
                                       (spec_body_size (get_text p))) 1 ∅).
  split.
  - rewrite (determine_font_styles_wf p Hwf). unfold profile.
    rewrite (is_nil_false _ Hne). reflexivity.
  - split; [reflexivity|]. split; [apply spec_weight_table_not_nil, Hne|].
    apply spec_body_size_heaviest, Hne.
Qed.

Lemma body_size_is_heaviest_size_witness :
  exists body hl,
    determine_font_styles sample_page = Ok (Some body, hl) /\
    body = spec_body_size (get_text sample_page) /\
    spec_weight_table (get_text sample_page) <> [] /\
    body ∈ span_sizes (get_text sample_page) /\
    forall s, (weight (get_text sample_page) s <= weight (get_text sample_page) body)%nat.
Proof.
  apply (body_size_is_heaviest_size sample_page).
  - vm_compute. reflexivity.
  - vm_compute. discriminate.
Defined.

(** ** Heading levels *)

#[local] Instance Zge_trans : Transitive Z.ge.
Proof. intros x y z. lia. Qed.

#[local] Instance Zge_total : Total Z.ge.
Proof. intros x y. lia. Qed.

Lemma assign_levels_lookup cands lvl (m : gmap Z nat) s l :
  NoDup cands ->
  assign_levels cands lvl m !! s = Some l <->
  (exists i, cands !! i = Some s /\ (lvl + i <= 3)%nat /\ l = (lvl + i)%nat) \/
  ((forall i, cands !! i = Some s -> (3 < lvl + i)%nat) /\ m !! s = Some l).
Proof.
  revert lvl m; induction cands as [|c cands IH]; intros lvl m Hnd; simpl.
  - split.
    + intros H. right. split; [intros i Hi; discriminate | exact H].
    + intros [(i & Hi & _)|[_ H]]; [discriminate | exact H].
  - apply NoDup_cons in Hnd as [Hc Hnd].
    destruct (Nat.leb_spec lvl 3) as [Hle|Hgt].
    + rewrite (IH (S lvl) _ Hnd). split.
      * intros [(i & Hi & Hb & ->)|[Hfar Hm]].
        -- left. exists (S i). split; [exact Hi|]. lia.
        -- destruct (decide (s = c)) as [->|Hne].
           ++ rewrite lookup_insert_eq in Hm. injection Hm as <-.
              left. exists 0%nat. split; [reflexivity|]. lia.
           ++ rewrite lookup_insert_ne in Hm by congruence.
              right. split; [|exact Hm].
              intros [|i] Hi; [simpl in Hi; congruence|].
              specialize (Hfar i Hi). lia.
      * intros [([|i] & Hi & Hb & ->)|[Hfar Hm]].
        -- simpl in Hi. injection Hi as ->. right. split.
           ++ intros i Hi. exfalso. apply Hc. apply list_elem_of_lookup. eauto.
           ++ rewrite lookup_insert_eq. f_equal. lia.
        -- left. exists i. split; [exact Hi|]. lia.
        -- destruct (decide (s = c)) as [->|Hne].
           ++ specialize (Hfar 0%nat eq_refl). lia.
           ++ right. split.
              ** intros i Hi. specialize (Hfar (S i) Hi). lia.
              ** rewrite lookup_insert_ne by congruence. exact Hm.
    + split.
      * intros H. right. split; [intros i _; lia | exact H].
      * intros [(i & _ & Hb & _)|[_ H]]; [lia | exact H].
Qed.

Lemma descending_index (l : list Z) i s :
  StronglySorted Z.ge l -> NoDup l -> l !! i = Some s ->
  length (filter (fun t => s < t) l) = i.
Proof.
  revert i; induction l as [|x l IH]; intros i Hs Hnd Hi; [discriminate|].
  apply StronglySorted_inv in Hs as [Hs Hx].
  apply NoDup_cons in Hnd as [Hxl Hnd].
  rewrite filter_cons. destruct i as [|i]; simpl in Hi.
  - injection Hi as ->. rewrite decide_False by lia.
    assert (filter (fun t => s < t) l = []) as ->; [|reflexivity].
    clear IH Hs Hnd Hxl. induction l as [|y l IH]; [reflexivity|].
    apply Forall_cons in Hx as [Hy Hx]. rewrite filter_cons.
    rewrite decide_False by lia. auto.
  - assert (s ∈ l) as Hin by (apply list_elem_of_lookup; eauto).
    rewrite Forall_forall in Hx. specialize (Hx s Hin).
    assert (x <> s) by congruence.
    rewrite decide_True by lia. simpl. f_equal. auto.
Qed.

Lemma filter_above_filter (L : list Z) body s :
  body + 1 < s ->
  filter (fun t => s < t) (filter (fun t => body + 1 < t) L) =
  filter (fun t => s < t) L.
Proof.
  intros Hs. induction L as [|x L IH]; [reflexivity|].
  rewrite !filter_cons. destruct (decide (s < x)) as [Hx|Hx].
  - rewrite decide_True by lia. rewrite filter_cons, decide_True by exact Hx.
    f_equal. exact IH.
  - destruct (decide (body + 1 < x)); [|exact IH].
    rewrite filter_cons, decide_False by exact Hx. exact IH.
Qed.

Lemma heading_candidates_spec sizes body :
  let cands := heading_candidates sizes body in
  StronglySorted Z.ge cands /\ NoDup cands /\
  (forall s, s ∈ cands <-> s ∈ sizes /\ body + 1 < s) /\
  (forall s, body + 1 < s ->
     length (filter (fun t => s < t) cands) =
     length (filter (fun t => s < t) (remove_dups sizes))).
Proof.
  unfold heading_candidates.
  set (L := filter (fun s => body + 1 < s) (remove_dups sizes)).
  pose proof (merge_sort_Permutation Z.ge L) as Hperm.
  split; [apply StronglySorted_merge_sort; apply _|].
  split; [|split].
  - rewrite Hperm. apply NoDup_filter, NoDup_remove_dups.
  - intros s. rewrite Hperm. unfold L.
    rewrite list_elem_of_filter, elem_of_remove_dups. tauto.
  - intros s Hs. rewrite Hperm. unfold L. rewrite (filter_above_filter _ body s Hs).
    reflexivity.
Qed.

(** The rank of a size: one more than the number of distinct sizes above it. *)
Lemma heading_levels_rank sizes body s l :
  assign_levels (heading_candidates sizes body) 1 ∅ !! s = Some l <->
  s ∈ sizes /\ body + 1 < s /\
  l = S (length (filter (fun t => s < t) (remove_dups sizes))) /\ (l <= 3)%nat.
Proof.
  destruct (heading_candidates_spec sizes body) as (Hsort & Hnd & Hmem & Hrank).
  rewrite (assign_levels_lookup _ 1 ∅ s l Hnd). rewrite lookup_empty. split.
  - intros [(i & Hi & Hle & ->)|[_ H]]; [|discriminate].
    assert (s ∈ heading_candidates sizes body) as Hin
      by (apply list_elem_of_lookup; eauto).
    apply Hmem in Hin as [Hin Hs]. split; [exact Hin|]. split; [exact Hs|].
    rewrite <- (Hrank s Hs), (descending_index _ i s Hsort Hnd Hi). lia.
  - intros (Hin & Hs & -> & Hle). left.
    assert (s ∈ heading_candidates sizes body) as Hc by (apply Hmem; auto).
    apply list_elem_of_lookup in Hc as [i Hi]. exists i. split; [exact Hi|].
    rewrite <- (Hrank s Hs), (descending_index _ i s Hsort Hnd Hi) in Hle |- *. lia.
Qed.

(** C2. When the profiler returns a body size and a heading-level map, a
    size [s] is mapped to level [l] exactly when [s] is the rounded size of
    some span, [s > bodySize + 1], [l] is the rank of [s] among the distinct
    sizes in descending order (one more than the number of distinct sizes
    above it) and that rank is at most 3.  So the three largest distinct
    sizes above [bodySize + 1] get levels 1, 2, 3, every level is between 1
    and 3, and a fourth or later size is absent from the map. *)
Theorem heading_levels_three_largest (p : page) (body : Z) (hl : gmap Z nat) :
  determine_font_styles p = Ok (Some body, hl) ->
  forall s l,
    hl !! s = Some l <->
    s ∈ span_sizes (get_text p) /\ body + 1 < s /\
    l = S (length (filter (fun t => s < t) (remove_dups (span_sizes (get_text p))))) /\
    (1 <= l <= 3)%nat.
Proof.
  intros H s l. apply determine_font_styles_Ok in H as [_ H].
  unfold profile in H. destruct (is_nil (text_spans (get_text p))); [discriminate|].
  injection H as -> ->. rewrite heading_levels_rank. split.
  - intros (? & ? & ? & ?). repeat split; auto; lia.
  - intros (? & ? & ? & ?). repeat split; auto; lia.
Qed.

Lemma heading_levels_three_largest_witness :
  (<[14 := 3%nat]> (<[18 := 2%nat]> (<[24 := 1%nat]> ∅)) : gmap Z nat) !! 18 = Some 2%nat <->
  18 ∈ span_sizes (get_text sample_page) /\ 10 + 1 < 18 /\
  2%nat = S (length (filter (fun t => 18 < t)
                            (remove_dups (span_sizes (get_text sample_page))))) /\
  (1 <= 2 <= 3)%nat.
Proof.
  apply (heading_levels_three_largest sample_page 10).
  vm_compute. reflexivity.
Defined.

(** ** The average size of a block *)

Lemma collect_span_fold body spans parts t c :
  fold_left (collect_span body) spans (parts, t, c) =
  (parts ++ map (make_part body) spans,
   t + Zsum (map (fun sp => part_size (make_part body sp) * Z.of_nat (raw_length sp)) spans),
   c + Zsum (map (fun sp => Z.of_nat (raw_length sp)) spans)).
Proof.
  revert parts t c; induction spans as [|sp spans IH]; intros parts t c; simpl.
  - rewrite app_nil_r, !Z.add_0_r. reflexivity.
  - rewrite IH, <- app_assoc. simpl. unfold raw_length.
    rewrite !Z.add_assoc. reflexivity.
Qed.

Lemma Zsum_app l1 l2 : Zsum (l1 ++ l2) = Zsum l1 + Zsum l2.
Proof. induction l1 as [|x l1 IH]; simpl; [reflexivity | rewrite IH; lia]. Qed.

Lemma collect_line_fold body lines acc :
  fold_left (collect_line body) lines acc =
  let spans := concat (map (fun ln => get (line_spans ln) []) lines) in
  Collected
    (block_text_lines acc ++
     map (fun ln => map (make_part body) (get (line_spans ln) [])) lines)
    (total_size acc +
     Zsum (map (fun sp => part_size (make_part body sp) * Z.of_nat (raw_length sp)) spans))
    (span_count acc + Zsum (map (fun sp => Z.of_nat (raw_length sp)) spans)).
Proof.
  revert acc; induction lines as [|ln lines IH]; intros [ls t c]; simpl.
  - rewrite app_nil_r, !Z.add_0_r. reflexivity.
  - rewrite IH. cbn zeta. unfold collect_line. cbn [block_text_lines total_size span_count].
    rewrite collect_span_fold. cbn [block_text_lines total_size span_count].
    rewrite <- app_assoc, !map_app, !Zsum_app. simpl. f_equal; lia.
Qed.

Lemma collect_block_spec body b :
  collect_block body b =
  Collected
    (map (fun ln => map (make_part body) (get (line_spans ln) [])) (get (block_lines b) []))
    (Zsum (map (fun sp => part_size (make_part body sp) * Z.of_nat (raw_length sp))
               (block_spans b)))
    (Zsum (map (fun sp => Z.of_nat (raw_length sp)) (block_spans b))).
Proof. unfold collect_block. rewrite collect_line_fold. reflexivity. Qed.

(** C3, as amended.  The average size the classifier gives a block is the
    rounded quotient of the sum over the spans of the block of rounded span
    size times the length of the span's text as it stands (not stripped), by
    the total length of these texts; it is the body size when the texts of
    the block have no character at all. *)
Theorem block_average_counts_raw_characters (body_size : Z) (b : block) :
  block_avg_size body_size (collect_block body_size b) =
  weighted_average raw_length body_size b.
Proof.
  rewrite collect_block_spec. unfold block_avg_size, weighted_average. reflexivity.
Qed.

(** C3 as stated fails: with one letter in 10pt and three blanks in 20pt the
    classifier finds 18 (70/4 rounded to even), the stripped count gives 10. *)
Lemma block_average_is_not_stripped :
  block_avg_size 10 (collect_block 10 padded_block) = 18 /\
  spec_block_avg_size 10 padded_block = 10 /\
  block_avg_size 10 (collect_block 10 padded_block) <> spec_block_avg_size 10 padded_block.
Proof. repeat split; vm_compute; (reflexivity || discriminate). Qed.

(** ** Stripping *)

Lemma lstrip_nil s : lstrip s = [] <-> forallb isspace s = true.
Proof.
  induction s as [|c s IH]; simpl; [tauto|].
  destruct (isspace c); simpl; [exact IH|]. split; discriminate.
Qed.

Lemma lstrip_head s c s' : lstrip s = c :: s' -> isspace c = false.
Proof.
  induction s as [|d s IH]; simpl; [discriminate|].
  destruct (isspace d) eqn:Hd; [exact IH|]. intros [= -> _]. exact Hd.
Qed.

Lemma forallb_rev {A} (f : A -> bool) l : forallb f (rev l) = forallb f l.
Proof.
  induction l as [|x l IH]; simpl; [reflexivity|].
  rewrite forallb_app, IH. simpl. rewrite andb_true_r. apply andb_comm.
Qed.

Lemma strip_nil s : strip s = [] <-> forallb isspace s = true.
Proof.
  unfold strip, rstrip. split.
  - intros H. apply (f_equal (@rev char)) in H. rewrite rev_involutive in H.
    simpl in H. apply lstrip_nil in H. rewrite forallb_rev in H.
    destruct (lstrip s) as [|c s'] eqn:E; [apply lstrip_nil, E|].
    apply lstrip_head in E. simpl in H. rewrite E in H. discriminate.
  - intros H. apply lstrip_nil in H. rewrite H. reflexivity.
Qed.

Lemma forallb_concat {A} (f : A -> bool) (ls : list (list A)) :
  forallb f (concat ls) = forallb (forallb f) ls.
Proof.
  induction ls as [|l ls IH]; simpl; [reflexivity|]. rewrite forallb_app, IH. reflexivity.
Qed.

Lemma blank_is_no_list_item s : forallb isspace s = true -> is_list_item s = false.
Proof. intros H. unfold is_list_item. apply lstrip_nil in H. rewrite H. reflexivity. Qed.

(** ** Fragments *)

Lemma app_nl_not_nil (s : text) : s ++ nl <> [].
Proof. destruct s; discriminate. Qed.

Lemma heading_fragment_not_nil level h : heading_fragment level h <> [].
Proof. unfold heading_fragment. destruct level; discriminate. Qed.

Lemma page_marker_not_nil n : page_marker n <> [].
Proof. discriminate. Qed.

Lemma flushed_not_blank st : Forall (fun fragment => fragment <> []) (flushed st).
Proof.
  unfold flushed. destruct (is_nil (current_paragraph st)); [constructor|].
  constructor; [apply app_nl_not_nil | constructor].
Qed.

Lemma flush_paragraph_spec st :
  flush_paragraph st =
  State (markdown_output st ++ flushed st) [] (last_block_bottom st).
Proof.
  unfold flush_paragraph, flushed. destruct st as [out para bottom]. simpl.
  destruct para; simpl; [rewrite app_nil_r|]; reflexivity.
Qed.

Lemma extends_refl st : extends st st.
Proof. exists []. rewrite app_nil_r. split; [reflexivity|constructor]. Qed.

Lemma extends_trans st1 st2 st3 : extends st1 st2 -> extends st2 st3 -> extends st1 st3.
Proof.
  intros (c1 & H1 & F1) (c2 & H2 & F2). exists (c1 ++ c2).
  rewrite H2, H1, app_assoc. split; [reflexivity|]. apply Forall_app; auto.
Qed.

Lemma extends_flush_append st fragment :
  fragment <> [] -> extends st (append_fragment (flush_paragraph st) fragment).
Proof.
  intros Hf. exists (flushed st ++ [fragment]).
  rewrite flush_paragraph_spec. unfold append_fragment. simpl.
  rewrite app_assoc. split; [reflexivity|].
  apply Forall_app. split; [apply flushed_not_blank|]. constructor; [exact Hf|constructor].
Qed.

Lemma assemble_line_extends st parts : extends st (assemble_line st parts).
Proof.
  unfold assemble_line. destruct (is_list_item (line_text_raw parts)).
  - apply extends_flush_append, app_nl_not_nil.
  - destruct (negb (is_nil (strip (line_text_raw parts)))); [|apply extends_refl].
    exists []. simpl. rewrite app_nil_r. split; [reflexivity|constructor].
Qed.

Lemma assemble_line_bottom st parts :
  last_block_bottom (assemble_line st parts) = last_block_bottom st.
Proof.
  unfold assemble_line. rewrite flush_paragraph_spec.
  destruct (is_list_item _); [reflexivity|]. destruct (negb _); reflexivity.
Qed.

Lemma assemble_lines_extends lines st : extends st (fold_left assemble_line lines st).
Proof.
  revert st; induction lines as [|ln lines IH]; intros st; simpl; [apply extends_refl|].
  eapply extends_trans; [apply assemble_line_extends | apply IH].
Qed.

Lemma classify_block_extends hl avg lines st :
  extends st (classify_block hl avg lines st).
Proof.
  unfold classify_block. destruct (hl !! avg) as [level|].
  - destruct (negb (is_nil (heading_text lines))).
    + apply extends_flush_append, heading_fragment_not_nil.
    + apply assemble_lines_extends.
  - apply assemble_lines_extends.
Qed.

Lemma emit_block_extends body hl b st : extends st (emit_block body hl b st).
Proof.
  unfold emit_block.
  destruct (classify_block_extends hl (block_avg_size body (collect_block body b))
              (block_text_lines (collect_block body b)) st) as (c & Hc & Fc).
  exists c. simpl. auto.
Qed.

(** ** Paragraph spacing *)

Lemma paragraph_spacing_cases pn i body b st st' :
  paragraph_spacing pn i body b st = Ok st' ->
  st' = st \/
  (((0 < pn)%nat \/ (0 < i)%nat) /\
   gap_significant (y0 (get (block_bbox b) zero_bbox)) (last_block_bottom st) body = true /\
   (exists prev, last (markdown_output st) = Some prev /\ prev <> []) /\
   st' = append_fragment (flush_paragraph st) []).
Proof.
  unfold paragraph_spacing.
  destruct ((0 <? pn)%nat || (0 <? i)%nat) eqn:Hfirst; [|intros [= <-]; auto].
  destruct (gap_significant _ _ _) eqn:Hgap; [|intros [= <-]; auto].
  unfold last_item.
  destruct (last (markdown_output st)) as [prev|] eqn:Hlast; simpl; [|discriminate].
  destruct prev as [|c prev]; simpl; intros [= <-]; [auto|].
  right. split.
  - apply orb_true_iff in Hfirst as [H|H]; apply Nat.ltb_lt in H; auto.
  - split; [reflexivity|]. split; [|reflexivity]. eexists. split; [reflexivity|discriminate].
Qed.

Lemma paragraph_spacing_break pn i body b st prev :
  (0 < pn)%nat \/ (0 < i)%nat ->
  gap_significant (y0 (get (block_bbox b) zero_bbox)) (last_block_bottom st) body = true ->
  last (markdown_output st) = Some prev -> prev <> [] ->
  paragraph_spacing pn i body b st = Ok (append_fragment (flush_paragraph st) []).
Proof.
  intros Hfirst Hgap Hlast Hprev. unfold paragraph_spacing.
  assert ((0 <? pn)%nat || (0 <? i)%nat = true) as ->.
  { apply orb_true_iff. destruct Hfirst as [H|H]; apply Nat.ltb_lt in H; auto. }
  unfold last_item. rewrite Hgap, Hlast. simpl. destruct prev; [congruence | reflexivity].
Qed.

Lemma paragraph_spacing_after_blank pn i body b st :
  last (markdown_output st) = Some [] -> paragraph_spacing pn i body b st = Ok st.
Proof.
  intros Hlast. unfold paragraph_spacing, last_item. rewrite Hlast. simpl.
  destruct (_ || _); [|reflexivity]. destruct (gap_significant _ _ _); reflexivity.
Qed.

Lemma last_after_flush st prev :
  last (markdown_output st) = Some prev -> prev <> [] ->
  last (markdown_output (flush_paragraph st)) <> Some [].
Proof.
  intros Hlast Hprev. rewrite flush_paragraph_spec. simpl. unfold flushed.
  destruct (is_nil (current_paragraph st)).
  - rewrite app_nil_r, Hlast. congruence.
  - rewrite last_snoc. intros [= H]. apply (app_nl_not_nil _ H).
Qed.

(** C4, as amended.  For a text block that is not block 0 of page 0, when the
    block's top edge minus [last_block_bottom] exceeds [body_size * 0.7] and
    the most recently emitted fragment is not blank, the open paragraph, if
    any, is flushed as a fragment, one blank fragment is appended, and the
    block is then processed from that state with no paragraph open: the
    output becomes the former output, the flushed paragraph, one blank
    fragment, and the block's own fragments, none of which is blank.  Block 0
    of page 0 is processed without any break. *)
Theorem paragraph_break_unless_after_blank :
  (forall pn i body hl b st prev,
     is_text_block b = true ->
     (0 < pn)%nat \/ (0 < i)%nat ->
     gap_significant (y0 (get (block_bbox b) zero_bbox)) (last_block_bottom st) body = true ->
     last (markdown_output st) = Some prev -> prev <> [] ->
     let broken := State (markdown_output st ++ flushed st ++ [[]]) [] (last_block_bottom st) in
     process_block pn body hl st (i, b) = Ok (emit_block body hl b broken) /\
     exists content,
       markdown_output (emit_block body hl b broken) =
       markdown_output st ++ flushed st ++ [[]] ++ content /\
       Forall (fun fragment => fragment <> []) content /\
       Forall (fun fragment => fragment <> []) (flushed st)) /\
  (forall body hl b st,
     paragraph_spacing 0 0 body b st = Ok st /\
     process_block 0 body hl st (0%nat, b) =
     Ok (if is_text_block b then emit_block body hl b st else st)).
Proof.
  split.
  - intros pn i body hl b st prev Htext Hfirst Hgap Hlast Hprev broken.
    assert (append_fragment (flush_paragraph st) [] = broken) as Hbroken.
    { rewrite flush_paragraph_spec. unfold append_fragment, broken. simpl.
      rewrite <- app_assoc. reflexivity. }
    split.
    + unfold process_block. rewrite Htext. simpl.
      rewrite (paragraph_spacing_break pn i body b st prev Hfirst Hgap Hlast Hprev).
      simpl. rewrite Hbroken. reflexivity.
    + destruct (emit_block_extends body hl b broken) as (content & Hc & Fc).
      exists content. split; [|split; [exact Fc | apply flushed_not_blank]].
      rewrite Hc. unfold broken. simpl. rewrite <- !app_assoc. reflexivity.
  - intros body hl b st. split; [reflexivity|].
    unfold process_block. destruct (is_text_block b); reflexivity.
Qed.

Lemma paragraph_break_unless_after_blank_witness :
  let st := State [page_marker 0; str "Intro" ++ nl] (str "Hello") 30 in
  let b := mk_block [[mk_span "World" 10 0]] 40 50 in
  let broken := State (markdown_output st ++ flushed st ++ [[]]) [] (last_block_bottom st) in
  process_block 0 10 ∅ st (2%nat, b) = Ok (emit_block 10 ∅ b broken) /\
  exists content,
    markdown_output (emit_block 10 ∅ b broken) =
    markdown_output st ++ flushed st ++ [[]] ++ content /\
    Forall (fun fragment => fragment <> []) content /\
    Forall (fun fragment => fragment <> []) (flushed st).
Proof.
  intros st b.
  apply (proj1 paragraph_break_unless_after_blank 0%nat 2%nat 10 ∅ b st (str "Intro" ++ nl)).
  - reflexivity.
  - right. apply Nat.lt_0_succ.
  - vm_compute. reflexivity.
  - reflexivity.
  - discriminate.
Defined.

(** C4 as stated fails.  The third block of [spaced_page] follows a block of
    blanks, before which a blank fragment was emitted.  Its top is 10 below
    the previous bottom, more than 0.7 times the body size 10, and it is not
    the first block, yet no blank fragment is appended before its content. *)
Lemma gap_after_blank_is_no_break :
  foldM (process_block 0 10 ∅) (enumerate (take 2 spaced_blocks))
        (State [page_marker 0] [] 0) = Ok before_third_block /\
  (exists b, spaced_blocks !! 2%nat = Some b /\
     is_text_block b = true /\
     gap_significant (y0 (get (block_bbox b) zero_bbox))
                     (last_block_bottom before_third_block) 10 = true /\
     process_block 0 10 ∅ before_third_block (2%nat, b) =
     Ok (State [page_marker 0; str "Intro" ++ nl; []] (str "World") 50) /\
     process_block 0 10 ∅ before_third_block (2%nat, b) <>
     Ok (emit_block 10 ∅ b (append_fragment (flush_paragraph before_third_block) []))) /\
  convert_pdf_to_markdown [spaced_page] =
  Ok [page_marker 0; str "Intro" ++ nl; []; str "World" ++ nl].
Proof.
  split; [vm_compute; reflexivity|]. split; [|vm_compute; reflexivity].
  eexists. split; [reflexivity|].
  split; [reflexivity|]. split; [vm_compute; reflexivity|].
  split; [vm_compute; reflexivity|]. vm_compute. discriminate.
Qed.

(** The same test also passes over a break when the text of the previous
    block is still in the open paragraph: of three paragraphs set 10 apart,
    the second and the third come out as one. *)
Example paragraphs_merge_after_blank :
  convert_pdf_to_markdown [paragraphs_page] =
  Ok [page_marker 0; str "Intro" ++ nl; []; str "Hello World" ++ nl].
Proof. vm_compute. reflexivity. Qed.

(** The first block is told by its indices: a first text block that comes
    after a skipped page is tested against the initial bottom edge 0. *)
Example first_block_after_skipped_page :
  convert_pdf_to_markdown
    [image_page; mk_page [mk_block [[mk_span "Hello" 10 0]] 20 30]] =
  Ok [page_marker 1; []; str "Hello" ++ nl].
Proof. vm_compute. reflexivity. Qed.

(** ** Blank fragments *)

Lemma no_double_blank_app out content :
  no_double_blank out -> Forall (fun fragment => fragment <> []) content ->
  no_double_blank (out ++ content).
Proof.
  intros Hout Hc i Hi Hsi.
  assert (i < length out)%nat as Hlt.
  { destruct (decide (i < length out)%nat) as [|Hge]; [assumption|].
    rewrite lookup_app_r in Hi by lia.
    exfalso. apply (Forall_lookup_1 _ _ _ _ Hc Hi). reflexivity. }
  rewrite lookup_app_l in Hi by exact Hlt.
  destruct (decide (S i < length out)%nat) as [Hslt|Hsge].
  - rewrite lookup_app_l in Hsi by exact Hslt. apply (Hout i Hi Hsi).
  - rewrite lookup_app_r in Hsi by lia.
    apply (Forall_lookup_1 _ _ _ _ Hc Hsi). reflexivity.
Qed.

Lemma no_double_blank_snoc_blank out :
  no_double_blank out -> last out <> Some [] -> no_double_blank (out ++ [[]]).
Proof.
  intros Hout Hlast i Hi Hsi.
  assert (S i < length (out ++ [[]]))%nat as Hlen by (eapply lookup_lt_Some; eauto).
  rewrite length_app in Hlen. simpl in Hlen.
  rewrite lookup_app_l in Hi by lia.
  destruct (decide (S i < length out)%nat) as [Hslt|Hsge].
  - rewrite lookup_app_l in Hsi by exact Hslt. apply (Hout i Hi Hsi).
  - apply Hlast. rewrite last_lookup.
    replace (pred (length out)) with i by lia. exact Hi.
Qed.

Lemma extends_no_double_blank st st' :
  extends st st' -> no_double_blank (markdown_output st) ->
  no_double_blank (markdown_output st').
Proof. intros (c & -> & Fc) H. apply no_double_blank_app; assumption. Qed.

Lemma flush_paragraph_extends st : extends st (flush_paragraph st).
Proof.
  exists (flushed st). rewrite flush_paragraph_spec. simpl.
  split; [reflexivity | apply flushed_not_blank].
Qed.

Lemma paragraph_spacing_no_double_blank pn i body b st st' :
  paragraph_spacing pn i body b st = Ok st' ->
  no_double_blank (markdown_output st) -> no_double_blank (markdown_output st').
Proof.
  intros H Hout.
  apply paragraph_spacing_cases in H as [->|(_ & _ & (prev & Hlast & Hprev) & ->)];
    [exact Hout|].
  unfold append_fragment. simpl. apply no_double_blank_snoc_blank.
  - apply (extends_no_double_blank st); [apply flush_paragraph_extends | exact Hout].
  - apply (last_after_flush st prev Hlast Hprev).
Qed.

Lemma foldM_invariant {A B} (P : A -> Prop) (f : A -> B -> result A) l :
  (forall a x a', P a -> f a x = Ok a' -> P a') ->
  forall a a', P a -> foldM f l a = Ok a' -> P a'.
Proof.
  intros Hf. induction l as [|x l IH]; intros a a' Ha; simpl.
  - intros [= <-]. exact Ha.
  - intros H. apply bind_Ok in H as (a1 & H1 & H2). eauto.
Qed.

Lemma process_block_no_double_blank pn body hl st ib st' :
  no_double_blank (markdown_output st) ->
  process_block pn body hl st ib = Ok st' ->
  no_double_blank (markdown_output st').
Proof.
  destruct ib as [i b]. unfold process_block. intros Hout.
  destruct (negb (is_text_block b)); [intros [= <-]; exact Hout|].
  intros H. apply bind_Ok in H as (st1 & H1 & [= <-]).
  apply (extends_no_double_blank st1); [apply emit_block_extends|].
  apply (paragraph_spacing_no_double_blank _ _ _ _ _ _ H1 Hout).
Qed.

Lemma process_page_no_double_blank st np st' :
  no_double_blank (markdown_output st) ->
  process_page st np = Ok st' ->
  no_double_blank (markdown_output st').
Proof.
  destruct np as [n p]. unfold process_page. intros Hout H.
  apply bind_Ok in H as ([[body|] hl] & _ & H); [|injection H as <-; exact Hout].
  apply bind_Ok in H as (st1 & H1 & [= <-]).
  apply (extends_no_double_blank st1); [apply flush_paragraph_extends|].
  refine (foldM_invariant (fun s => no_double_blank (markdown_output s)) _ _ _ _ _ _ H1).
  - intros a x a' Ha Hx. apply (process_block_no_double_blank _ _ _ _ _ _ Ha Hx).
  - simpl. apply no_double_blank_app; [exact Hout|].
    constructor; [apply page_marker_not_nil | constructor].
Qed.

Lemma foldM_total {A B} (P : A -> Prop) (f : A -> B -> result A) l :
  (forall a x, x ∈ l -> P a -> exists a', f a x = Ok a' /\ P a') ->
  forall a, P a -> exists a', foldM f l a = Ok a' /\ P a'.
Proof.
  induction l as [|x l IH]; intros Hf a Ha; simpl; [eauto|].
  destruct (Hf a x) as (a1 & -> & Ha1); [apply elem_of_cons; auto | exact Ha|].
  simpl. apply IH; [|exact Ha1].
  intros a0 y Hy. apply Hf. apply elem_of_cons. auto.
Qed.

Lemma extends_not_nil st st' :
  extends st st' -> markdown_output st <> [] -> markdown_output st' <> [].
Proof. intros (c & -> & _) H. destruct (markdown_output st); [congruence | discriminate]. Qed.

(** Once the page marker is in the output, [markdown_output[-1]] exists: a
    block never raises. *)
Lemma process_block_total pn body hl st ib :
  markdown_output st <> [] ->
  exists st', process_block pn body hl st ib = Ok st' /\ markdown_output st' <> [].
Proof.
  destruct ib as [i b]. intros Hout. unfold process_block.
  destruct (negb (is_text_block b)); [eauto|].
  assert (exists st1, paragraph_spacing pn i body b st = Ok st1 /\ markdown_output st1 <> [])
    as (st1 & -> & Hst1).
  { unfold paragraph_spacing, last_item.
    destruct (_ || _); [|eauto]. destruct (gap_significant _ _ _); [|eauto].
    destruct (last (markdown_output st)) as [prev|] eqn:Hlast.
    - simpl. destruct (negb (is_nil prev)); [|eauto].
      eexists. split; [reflexivity|]. unfold append_fragment. simpl.
      destruct (markdown_output (flush_paragraph st)); discriminate.
    - apply last_None in Hlast. congruence. }
  simpl. eexists. split; [reflexivity|].
  apply (extends_not_nil st1); [apply emit_block_extends | exact Hst1].
Qed.

Lemma process_page_total st n p :
  well_formed (get_text p) = true -> exists st', process_page st (n, p) = Ok st'.
Proof.
  intros Hwf. unfold process_page. rewrite (determine_font_styles_wf p Hwf).
  destruct (profile (get_text p)) as [[body|] hl]; simpl; [|eauto].
  edestruct (foldM_total (fun s => markdown_output s <> [])
               (process_block n body hl) (enumerate (get_text_sorted p)))
    as (st1 & -> & _).
  - intros a x _ Ha. apply process_block_total, Ha.
  - simpl. destruct (markdown_output st); discriminate.
  - simpl. eauto.
Qed.

(** The run of a document whose pages have the keys the profiler indexes
    returns a fragment list. *)
Lemma run_total doc :
  Forall (fun p => well_formed (get_text p) = true) doc ->
  exists st, run doc = Ok st.
Proof.
  intros Hdoc. unfold run.
  destruct (foldM_total (fun _ => True) process_page (enumerate doc)) with (a := initial_state)
    as (st & Hst & _); [|exact I|eauto].
  intros a [i p] Hin _. apply elem_of_zip_r in Hin.
  rewrite Forall_forall in Hdoc.
  destruct (process_page_total a i p (Hdoc p Hin)) as [st' Hst']. eauto.
Qed.

(** C10.  When the most recently emitted fragment is blank the vertical-gap
    test changes nothing; when it appends a blank fragment, the fragment
    before it (the paragraph it has just flushed, or else the last fragment
    of the output) is not blank.  No other place emits a blank fragment, so
    the output of a run never has two blank fragments in a row; and a run
    over pages that have the keys the profiler indexes does return. *)
Theorem gap_check_never_doubles_blank :
  (forall pn i body b st,
     last (markdown_output st) = Some [] -> paragraph_spacing pn i body b st = Ok st) /\
  (forall pn i body b st st',
     paragraph_spacing pn i body b st = Ok st' ->
     st' = st \/
     (st' = append_fragment (flush_paragraph st) [] /\
      last (markdown_output (flush_paragraph st)) <> Some [])) /\
  (forall doc out,
     convert_pdf_to_markdown doc = Ok out -> no_double_blank out) /\
  (forall doc,
     Forall (fun p => well_formed (get_text p) = true) doc ->
     exists out, convert_pdf_to_markdown doc = Ok out /\ no_double_blank out).
Proof.
  assert (forall doc out, convert_pdf_to_markdown doc = Ok out -> no_double_blank out)
    as Hrun.
  { intros doc out H. unfold convert_pdf_to_markdown in H.
    apply bind_Ok in H as (st & Hrun & [= <-]). unfold run in Hrun.
    refine (foldM_invariant (fun s => no_double_blank (markdown_output s)) _ _ _ _ _ _ Hrun).
    + intros a x a' Ha Hx. apply (process_page_no_double_blank _ _ _ Ha Hx).
    + intros i Hi. discriminate. }
  split; [|split; [|split]].
  - intros pn i body b st. apply paragraph_spacing_after_blank.
  - intros pn i body b st st' H.
    apply paragraph_spacing_cases in H as [->|(_ & _ & (prev & Hlast & Hprev) & ->)];
      [left; reflexivity|].
    right. split; [reflexivity | apply (last_after_flush st prev Hlast Hprev)].
  - exact Hrun.
  - intros doc Hdoc. destruct (run_total doc Hdoc) as [st Hst].
    exists (markdown_output st).
    assert (convert_pdf_to_markdown doc = Ok (markdown_output st)) as H.
    { unfold convert_pdf_to_markdown. rewrite Hst. reflexivity. }
    split; [exact H | apply (Hrun doc _ H)].
Qed.

Lemma gap_check_never_doubles_blank_witness :
  paragraph_spacing 0 2 10 (mk_block [[mk_span "World" 10 0]] 40 50) before_third_block =
  Ok before_third_block /\
  no_double_blank [page_marker 0; str "Intro" ++ nl; []; str "Hello World" ++ nl].
Proof.
  split.
  - apply (proj1 gap_check_never_doubles_blank). reflexivity.
  - apply (proj1 (proj2 (proj2 gap_check_never_doubles_blank)) [paragraphs_page]).
    vm_compute. reflexivity.
Defined.

(** ** Flushing the open paragraph *)

Lemma append_flush_spec st fragment :
  append_fragment (flush_paragraph st) fragment =
  State (markdown_output st ++ flushed st ++ [fragment]) [] (last_block_bottom st).
Proof.
  rewrite flush_paragraph_spec. unfold append_fragment. simpl.
  rewrite <- app_assoc. reflexivity.
Qed.

Lemma process_page_paragraph st np st' :
  process_page st np = Ok st' -> current_paragraph st = [] -> current_paragraph st' = [].
Proof.
  destruct np as [n p]. unfold process_page. intros H Hst.
  apply bind_Ok in H as ([[body|] hl] & _ & H); [|injection H as <-; exact Hst].
  apply bind_Ok in H as (st1 & _ & [= <-]). rewrite flush_paragraph_spec. reflexivity.
Qed.

(** C7.  The state holds a single paragraph accumulator, [current_paragraph].
    A heading fragment and a list-item fragment are each appended after the
    fragment of the open paragraph, if there is one, and leave no paragraph
    open.  A page that is processed starts with no paragraph open, whatever
    the state it is entered with, and ends by flushing the paragraph its
    blocks left open; after any run of pages no paragraph is open. *)
Theorem open_paragraph_is_flushed :
  (forall hl avg lines st level,
     hl !! avg = Some level -> heading_text lines <> [] ->
     classify_block hl avg lines st =
     State (markdown_output st ++ flushed st ++
            [heading_fragment level (heading_text lines)]) [] (last_block_bottom st)) /\
  (forall st parts,
     is_list_item (line_text_raw parts) = true ->
     assemble_line st parts =
     State (markdown_output st ++ flushed st ++ [strip (processed_line parts) ++ nl]) []
           (last_block_bottom st)) /\
  (forall st n p body hl st',
     determine_font_styles p = Ok (Some body, hl) ->
     process_page st (n, p) = Ok st' ->
     exists st1,
       foldM (process_block n body hl) (enumerate (get_text_sorted p))
             (State (markdown_output st ++ [page_marker n]) [] (last_block_bottom st))
       = Ok st1 /\
       st' = State (markdown_output st1 ++ flushed st1) [] (last_block_bottom st1)) /\
  (forall doc st, run doc = Ok st -> current_paragraph st = []).
Proof.
  split; [|split; [|split]].
  - intros hl avg lines st level Hl Hh. unfold classify_block. rewrite Hl.
    destruct (heading_text lines) as [|c h] eqn:E; [congruence|]. simpl.
    apply append_flush_spec.
  - intros st parts Hli. unfold assemble_line. rewrite Hli. apply append_flush_spec.
  - intros st n p body hl st' Hp H. unfold process_page in H. rewrite Hp in H.
    simpl in H. apply bind_Ok in H as (st1 & H1 & [= <-]).
    exists st1. split; [exact H1 | apply flush_paragraph_spec].
  - intros doc st H. unfold run in H.
    refine (foldM_invariant (fun s => current_paragraph s = []) _ _ _ _ _ _ H).
    + intros a x a' Ha Hx. apply (process_page_paragraph _ _ _ Hx Ha).
    + reflexivity.
Qed.

Lemma open_paragraph_is_flushed_witness :
  classify_block (<[24 := 1%nat]> ∅) 24 [[Part (str "Title") 24 true]]
                 (State [page_marker 0] (str "open") 0) =
  State [page_marker 0; str "open" ++ nl; str "# Title" ++ nl] [] 0 /\
  assemble_line (State [page_marker 0] (str "open") 0) [Part (str "- item") 10 false] =
  State [page_marker 0; str "open" ++ nl; str "- item" ++ nl] [] 0 /\
  (exists st1,
     foldM (process_block 0 10 (<[24 := 1%nat]> ∅)) (enumerate (get_text_sorted titled_page))
           (State [page_marker 0] [] 0) = Ok st1 /\
     State [page_marker 0; str "# Title" ++ nl; str "Hello **World**" ++ nl;
            str "- item" ++ nl; str "tail" ++ nl] [] 60 =
     State (markdown_output st1 ++ flushed st1) [] (last_block_bottom st1)) /\
  current_paragraph
    (State [page_marker 0; str "# Title" ++ nl; str "Hello **World**" ++ nl;
            str "- item" ++ nl; str "tail" ++ nl] [] 60) = [].
Proof.
  destruct open_paragraph_is_flushed as (Hhead & Hlist & Hpage & Hrun).
  split; [|split; [|split]].
  - apply (Hhead (<[24 := 1%nat]> ∅) 24 [[Part (str "Title") 24 true]]
                 (State [page_marker 0] (str "open") 0) 1%nat).
    + vm_compute. reflexivity.
    + vm_compute. discriminate.
  - apply (Hlist (State [page_marker 0] (str "open") 0) [Part (str "- item") 10 false]).
    vm_compute. reflexivity.
  - apply (Hpage initial_state 0%nat titled_page 10 (<[24 := 1%nat]> ∅)).
    + vm_compute. reflexivity.
    + vm_compute. reflexivity.
  - apply (Hrun [titled_page]). vm_compute. reflexivity.
Defined.

(** ** Blocks of the size of a heading without text *)

Lemma blank_lines_emit_nothing lines st :
  forallb (fun parts => forallb isspace (line_text_raw parts)) lines = true ->
  fold_left assemble_line lines st = st.
Proof.
  revert st; induction lines as [|parts lines IH]; intros st; simpl; [reflexivity|].
  rewrite andb_true_iff. intros [Hp Hall].
  unfold assemble_line at 2. rewrite (blank_is_no_list_item _ Hp).
  rewrite (proj2 (strip_nil _) Hp). simpl. apply IH, Hall.
Qed.

Lemma blank_heading_text lines :
  heading_text lines = [] ->
  forallb (fun parts => forallb isspace (line_text_raw parts)) lines = true.
Proof.
  unfold heading_text. rewrite strip_nil. unfold line_text_raw.
  induction lines as [|parts lines IH]; simpl; [reflexivity|].
  rewrite map_app, concat_app, forallb_app, andb_true_iff.
  intros [Hp Hall]. rewrite Hp. simpl. apply IH, Hall.
Qed.

(** C8.  When the average size of a block is a key of the heading-level map
    and the concatenated text of its spans is empty after stripping, the
    classifier does what it does for a block that is no heading: it runs
    the list-item and paragraph assembly over the lines of the block.  No
    heading fragment is emitted; all lines being blank, nothing is emitted
    and nothing is added to the open paragraph. *)
Theorem blank_heading_block_falls_through
    (hl : gmap Z nat) (avg : Z) (lines : list (list part)) (st : state) (level : nat) :
  hl !! avg = Some level ->
  heading_text lines = [] ->
  classify_block hl avg lines st = fold_left assemble_line lines st /\
  classify_block hl avg lines st = st.
Proof.
  intros Hl Hh.
  assert (classify_block hl avg lines st = fold_left assemble_line lines st) as Heq.
  { unfold classify_block. rewrite Hl, Hh. reflexivity. }
  split; [exact Heq|]. rewrite Heq.
  apply blank_lines_emit_nothing, blank_heading_text, Hh.
Qed.

Lemma blank_heading_block_falls_through_witness :
  let lines := [[Part (str "  ") 24 true]; [Part (str " ") 24 false]] in
  let st := State [page_marker 0] (str "open") 0 in
  classify_block (<[24 := 1%nat]> ∅) 24 lines st = fold_left assemble_line lines st /\
  classify_block (<[24 := 1%nat]> ∅) 24 lines st = st.
Proof.
  intros lines st.
  apply (blank_heading_block_falls_through (<[24 := 1%nat]> ∅) 24 lines st 1%nat).
  - vm_compute. reflexivity.
  - vm_compute. reflexivity.
Defined.

(** ** Bold spans *)

(** C9, as amended.  Reassembly appends the text of each span; the text of a
    bold span is wrapped in a pair of double markers unless the line built
    so far ends with the marker or the span's text itself begins with it.
    A plain span followed by a bold one gives "Hello **World**"; two bold
    spans in a row give "**A**B". *)
Theorem bold_spans_are_wrapped_once :
  (forall parts p,
     processed_line (parts ++ [p]) =
     processed_line parts ++
     (if part_bold p &&
         negb (endswith (processed_line parts) (str "**")
               || startswith (part_text p) (str "**"))
      then str "**" ++ part_text p ++ str "**"
      else part_text p)) /\
  processed_line (map (make_part 10) [mk_span "Hello " 10 0; mk_span "World" 10 16]) =
  str "Hello **World**" /\
  processed_line (map (make_part 10) [mk_span "A" 10 16; mk_span "B" 10 16]) =
  str "**A**B" /\
  str "**A**B" <> str "**A****B**".
Proof.
  split; [|split; [|split]].
  - intros parts p. unfold processed_line. rewrite fold_left_app. simpl.
    unfold bold_step. destruct (part_bold p); simpl; [|reflexivity].
    destruct (endswith _ _); simpl; [reflexivity|].
    destruct (startswith _ _); reflexivity.
  - vm_compute. reflexivity.
  - vm_compute. reflexivity.
  - vm_compute. discriminate.
Qed.

(** C9 as stated fails: a bold span whose text begins with the marker is left
    as it is, where the rule of the specification wraps it. *)
Lemma bold_span_with_marker_is_not_wrapped :
  processed_line [Part (str "**x") 10 true] = str "**x" /\
  fold_left spec_bold_step [Part (str "**x") 10 true] [] = str "****x**" /\
  processed_line [Part (str "**x") 10 true] <>
  fold_left spec_bold_step [Part (str "**x") 10 true] [].
Proof.
  split; [vm_compute; reflexivity|]. split; [vm_compute; reflexivity|].
  vm_compute. discriminate.
Qed.

(** ** Pages without text *)

(** C5, as amended.  On a page whose dictionaries have the keys the profiler
    indexes, the profiler returns [(None, {})] exactly when the page has no
    text block or its text blocks hold no span at all, whatever the texts of
    the spans.  Whenever it returns [None] the map is empty and the text
    blocks hold no span, and the page loop leaves the whole state as it was:
    no fragment is appended, not even a page marker. *)
Theorem page_without_spans_is_skipped :
  (forall p,
     well_formed (get_text p) = true ->
     (determine_font_styles p = Ok (None, ∅) <->
      filter (fun b => is_text_block b = true) (get_text p) = [] \/
      text_spans (get_text p) = [])) /\
  (forall p hl,
     determine_font_styles p = Ok (None, hl) ->
     hl = ∅ /\ text_spans (get_text p) = []) /\
  (forall st n p hl,
     determine_font_styles p = Ok (None, hl) -> process_page st (n, p) = Ok st).
Proof.
  split; [|split].
  - intros p Hwf. rewrite determine_font_styles_Ok. unfold profile. split.
    + intros [_ H]. right.
      destruct (text_spans (get_text p)); [reflexivity | discriminate].
    + intros H. split; [exact Hwf|].
      assert (text_spans (get_text p) = []) as ->; [|reflexivity].
      destruct H as [H|H]; [|exact H]. unfold text_spans. rewrite H. reflexivity.
  - intros p hl H. apply determine_font_styles_Ok in H as [_ H]. unfold profile in H.
    destruct (text_spans (get_text p)); [|discriminate].
    injection H as <-. auto.
  - intros st n p hl H. unfold process_page. rewrite H. reflexivity.
Qed.

Lemma page_without_spans_is_skipped_witness :
  (determine_font_styles image_page = Ok (None, ∅) <->
   filter (fun b => is_text_block b = true) (get_text image_page) = [] \/
   text_spans (get_text image_page) = []) /\
  process_page (State [page_marker 0] [] 60) (1%nat, image_page) =
  Ok (State [page_marker 0] [] 60).
Proof.
  destruct page_without_spans_is_skipped as (Hiff & _ & Hskip). split.
  - apply (Hiff image_page). vm_compute. reflexivity.
  - apply (Hskip (State [page_marker 0] [] 60) 1%nat image_page ∅).
    vm_compute. reflexivity.
Defined.

(** C5 as stated fails.  No span of [blank_spans_page] has any text, its two
    spans holding three blanks and nothing, yet the profiler does not return
    [(None, {})]: every span adds its size to [all_sizes], so the page is
    profiled with the size 12 and gets its page marker. *)
Lemma page_of_blank_spans_is_not_skipped :
  Forall (fun sp => strip (get (span_text sp) []) = [])
         (text_spans (get_text blank_spans_page)) /\
  determine_font_styles blank_spans_page = Ok (Some 12, ∅) /\
  determine_font_styles blank_spans_page <> Ok (None, ∅) /\
  process_page initial_state (0%nat, blank_spans_page) =
  Ok (State [page_marker 0] [] 10) /\
  convert_pdf_to_markdown [blank_spans_page] = Ok [page_marker 0].
Proof.
  split; [repeat constructor|].
  split; [vm_compute; reflexivity|]. split; [vm_compute; discriminate|].
  split; vm_compute; reflexivity.
Qed.

(** A span counts even when its text is empty: the page is profiled with
    the size of that span and gets its page marker. *)
Example page_with_empty_span_is_processed :
  determine_font_styles (mk_page [mk_block [[mk_span "" 12 0]] 0 10]) = Ok (Some 12, ∅) /\
  convert_pdf_to_markdown [mk_page [mk_block [[mk_span "" 12 0]] 0 10]] =
  Ok [page_marker 0].
Proof. split; vm_compute; reflexivity. Qed.

(** ** Spans with missing keys *)

Lemma foldM_raises {A B} (f : A -> B -> result A) (l : list B) (x : B) :
  x ∈ l -> (forall a, exists e, f a x = Raise e) ->
  forall a, exists e, foldM f l a = Raise e.
Proof.
  intros Hin Hx. induction l as [|y l IH]; intros a; [apply elem_of_nil in Hin as []|].
  simpl. apply elem_of_cons in Hin as [<-|Hin].
  - destruct (Hx a) as [e ->]. exists e. reflexivity.
  - destruct (f a y) as [a'|e]; simpl; [apply (IH Hin) | eauto].
Qed.

Lemma elem_of_enumerate_from {A} (l : list A) (x : A) (k : nat) :
  x ∈ l -> exists i, (i, x) ∈ zip (seq k (length l)) l.
Proof.
  revert k; induction l as [|y l IH]; intros k Hin; [apply elem_of_nil in Hin as []|].
  simpl. apply elem_of_cons in Hin as [->|Hin].
  - exists k. apply elem_of_cons. auto.
  - destruct (IH (S k) Hin) as [i Hi]. exists i. apply elem_of_cons. auto.
Qed.

Lemma profiler_raises_on_missing_key p :
  well_formed (get_text p) = false -> exists e, determine_font_styles p = Raise e.
Proof.
  intros Hwf. destruct (determine_font_styles p) as [r|e] eqn:E; [|eauto].
  apply determine_font_styles_Ok in E as [E _]. congruence.
Qed.

(** A page with a span that lacks a key the profiler indexes ends the run,
    wherever it stands in the document. *)
Lemma missing_key_aborts_run doc p :
  p ∈ doc -> well_formed (get_text p) = false ->
  exists e, convert_pdf_to_markdown doc = Raise e.
Proof.
  intros Hin Hwf. unfold convert_pdf_to_markdown, run.
  destruct (elem_of_enumerate_from doc p 0 Hin) as [i Hi].
  destruct (foldM_raises process_page (enumerate doc) (i, p) Hi) with (a := initial_state)
    as [e He].
  - intros st. unfold process_page.
    destruct (profiler_raises_on_missing_key p Hwf) as [e ->]. exists e. reflexivity.
  - exists e. rewrite He. reflexivity.
Qed.

(** C6 fails on the code.  The block classifier reads a span with [.get] and
    the defaults of the specification (here the body size 10 for the missing
    size), but the style profiler, which sees every page first, indexes
    ['size'], ['flags'] and ['text']: a span without ['size'] raises
    [KeyError] there, the exception is caught nowhere, and the run ends
    without any output. *)
Theorem span_without_size_aborts_run :
  determine_font_styles sizeless_page = Raise (KeyError (str "size")) /\
  convert_pdf_to_markdown [sizeless_page] = Raise (KeyError (str "size")) /\
  block_text_lines (collect_block 10 sizeless_block) = [[Part (str "a") 10 false]].
Proof. repeat split; vm_compute; reflexivity. Qed.

(** * Further properties of the code *)

(** ** Post-processing *)

(** Collapsing newlines twice is the same as collapsing them once. *)
Theorem collapse_newlines_idempotent (s : text) :
  collapse_newlines (collapse_newlines s) = collapse_newlines s.
Proof.
  unfold collapse_newlines. generalize 0%nat.
  induction s as [|c s IH]; intros n; simpl; [reflexivity|].
  destruct (c =? 10)%N eqn:Hc.
  - destruct (n <? 2)%nat eqn:Hn; [|apply IH].
    simpl. rewrite Hc, Hn, IH. reflexivity.
  - simpl. rewrite Hc, IH. reflexivity.
Qed.

Lemma collapse_from_run n k c rest :
  c <> 10%N ->
  collapse_from n (replicate k 10%N ++ c :: rest) =
  replicate (Nat.min k (2 - n)) 10%N ++ c :: collapse_from 0 rest.
Proof.
  intros Hc. apply N.eqb_neq in Hc.
  revert n; induction k as [|k IH]; intros n; simpl.
  - rewrite Hc. reflexivity.
  - destruct (Nat.ltb_spec n 2) as [Hn|Hn].
    + rewrite IH. replace (2 - n)%nat with (S (2 - S n)) by lia. reflexivity.
    + rewrite IH. replace (2 - n)%nat with 0%nat by lia.
      rewrite Nat.min_0_r. reflexivity.
Qed.

Lemma collapse_from_run_end n k :
  collapse_from n (replicate k 10%N) = replicate (Nat.min k (2 - n)) 10%N.
Proof.
  revert n; induction k as [|k IH]; intros n; simpl; [reflexivity|].
  destruct (Nat.ltb_spec n 2) as [Hn|Hn].
  - rewrite IH. replace (2 - n)%nat with (S (2 - S n)) by lia. reflexivity.
  - rewrite IH. replace (2 - n)%nat with 0%nat by lia.
    rewrite Nat.min_0_r. reflexivity.
Qed.

Lemma collapse_from_app_char n s c rest :
  c <> 10%N ->
  collapse_from n (s ++ c :: rest) = collapse_from n (s ++ [c]) ++ collapse_from 0 rest.
Proof.
  intros Hc. apply N.eqb_neq in Hc.
  revert n; induction s as [|d s IH]; intros n; simpl.
  - rewrite Hc. reflexivity.
  - destruct (d =? 10)%N; [destruct (n <? 2)%nat|]; rewrite IH; reflexivity.
Qed.

(** A run of [k] newlines comes out as [min k 2] newlines, whether it is
    followed by another character or ends the text, and what follows a
    character that is no newline is collapsed on its own. *)
Theorem collapse_newlines_runs :
  (forall k c rest,
     c <> 10%N ->
     collapse_newlines (replicate k 10%N ++ c :: rest) =
     replicate (Nat.min k 2) 10%N ++ c :: collapse_newlines rest) /\
  (forall k, collapse_newlines (replicate k 10%N) = replicate (Nat.min k 2) 10%N) /\
  (forall s c rest,
     c <> 10%N ->
     collapse_newlines (s ++ c :: rest) =
     collapse_newlines (s ++ [c]) ++ collapse_newlines rest).
Proof.
  split; [|split].
  - intros k c rest Hc. apply (collapse_from_run 0 k c rest Hc).
  - intros k. apply (collapse_from_run_end 0 k).
  - intros s c rest Hc. apply (collapse_from_app_char 0 s c rest Hc).
Qed.

Lemma collapse_newlines_runs_witness :
  collapse_newlines (replicate 5 10%N ++ 97%N :: str "b") =
  replicate (Nat.min 5 2) 10%N ++ 97%N :: collapse_newlines (str "b").
Proof. apply (proj1 collapse_newlines_runs 5%nat 97%N (str "b")). discriminate. Defined.

(** Collapsing removes newlines only: the other characters are kept, in
    their order. *)
Theorem collapse_newlines_keeps_text (s : text) :
  filter (fun c => c <> 10%N) (collapse_newlines s) = filter (fun c => c <> 10%N) s.
Proof.
  unfold collapse_newlines. generalize 0%nat.
  induction s as [|c s IH]; intros n; simpl; [reflexivity|].
  destruct (N.eqb_spec c 10) as [->|Hc].
  - rewrite (filter_cons_False _ 10%N) by congruence.
    destruct (n <? 2)%nat; [|apply IH].
    rewrite filter_cons_False by congruence. apply IH.
  - rewrite !filter_cons_True by exact Hc. rewrite IH. reflexivity.
Qed.

Lemma collapse_from_tail n s c t :
  collapse_from n s = c :: t -> exists m s', t = collapse_from m s'.
Proof.
  revert n; induction s as [|d s IH]; intros n; simpl; [discriminate|].
  destruct (d =? 10)%N.
  - destruct (n <? 2)%nat; [intros [= _ <-]; eauto | apply IH].
  - intros [= _ <-]. eauto.
Qed.

Lemma collapse_from_head n s post :
  collapse_from n s <> 10%N :: 10%N :: 10%N :: post.
Proof.
  assert (forall s n k post, (0 < k)%nat -> (2 < n + k)%nat ->
            collapse_from n s <> replicate k 10%N ++ post) as H.
  { clear. induction s as [|c s IH]; intros n k post Hk0 Hk; simpl.
    - destruct k; [lia | discriminate].
    - destruct (N.eqb_spec c 10) as [->|Hc].
      + destruct (Nat.ltb_spec n 2) as [Hn|Hn]; [|apply IH; assumption].
        destruct k as [|k]; [lia|]. simpl. intros [= H]. revert H. apply IH; lia.
      + destruct k as [|k]; [lia|]. simpl. congruence. }
  apply (H s n 3%nat post); lia.
Qed.

Lemma collapse_from_no_triple n s pre post :
  collapse_from n s <> pre ++ 10%N :: 10%N :: 10%N :: post.
Proof.
  revert n s; induction pre as [|c pre IH]; intros n s; simpl.
  - apply collapse_from_head.
  - intros H. destruct (collapse_from_tail _ _ _ _ H) as (m & s' & Ht).
    apply (IH m s'). symmetry. exact Ht.
Qed.

(** After collapsing no three newlines stand in a row. *)
Theorem collapse_newlines_no_triple (s pre post : text) :
  collapse_newlines s <> pre ++ 10%N :: 10%N :: 10%N :: post.
Proof.
  unfold collapse_newlines. generalize 0%nat. revert s.
  induction pre as [|c pre IH]; intros s n; simpl.
  - apply collapse_from_head.
  - intros H. destruct (collapse_from_tail _ _ _ _ H) as (m & s' & Ht).
    apply (IH s' m). symmetry. exact Ht.
Qed.

Lemma lstrip_split s : exists pre, s = pre ++ lstrip s /\ forallb isspace pre = true.
Proof.
  induction s as [|c s (pre & Hs & Hpre)]; simpl; [exists []; auto|].
  destruct (isspace c) eqn:Hc.
  - exists (c :: pre). simpl. rewrite Hc, Hpre. split; [f_equal; exact Hs | reflexivity].
  - exists []. auto.
Qed.

Lemma lstrip_snoc s c : isspace c = false -> lstrip (s ++ [c]) = lstrip s ++ [c].
Proof.
  intros Hc. induction s as [|d s IH]; simpl; [rewrite Hc; reflexivity|].
  destruct (isspace d); [exact IH | reflexivity].
Qed.

Lemma strip_split s :
  exists pre post,
    s = pre ++ strip s ++ post /\ forallb isspace pre = true /\ forallb isspace post = true.
Proof.
  destruct (lstrip_split s) as (pre & Hs & Hpre).
  destruct (lstrip_split (rev (lstrip s))) as (post & Ht & Hpost).
  exists pre, (rev post). split; [|split; [exact Hpre | rewrite forallb_rev; exact Hpost]].
  unfold strip, rstrip. rewrite <- rev_app_distr, <- Ht, rev_involutive. exact Hs.
Qed.

Lemma strip_head s c : head (strip s) = Some c -> isspace c = false.
Proof.
  unfold strip, rstrip. destruct (lstrip s) as [|d t] eqn:E; [discriminate|].
  pose proof (lstrip_head _ _ _ E) as Hd. simpl.
  rewrite (lstrip_snoc _ _ Hd), rev_app_distr. simpl. intros [= <-]. exact Hd.
Qed.

Lemma strip_last s c : last (strip s) = Some c -> isspace c = false.
Proof.
  unfold strip, rstrip. destruct (lstrip (rev (lstrip s))) as [|d t] eqn:E; [discriminate|].
  simpl. rewrite last_snoc. intros [= <-]. apply (lstrip_head _ _ _ E).
Qed.

Lemma collapse_newlines_no_triple_witness :
  collapse_newlines (str "a" ++ replicate 4 10%N ++ str "b") <>
  str "a" ++ 10%N :: 10%N :: 10%N :: str "b".
Proof. apply (collapse_newlines_no_triple _ (str "a") (str "b")). Defined.

(** The text written to the file has no three newlines in a row and neither
    begins nor ends with white space. *)
Theorem final_markdown_is_tidy (markdown_output : list text) :
  (forall pre post,
     final_markdown markdown_output <> pre ++ 10%N :: 10%N :: 10%N :: post) /\
  (forall c, head (final_markdown markdown_output) = Some c -> isspace c = false) /\
  (forall c, last (final_markdown markdown_output) = Some c -> isspace c = false).
Proof.
  unfold final_markdown. split; [|split].
  - intros pre post H.
    destruct (strip_split (collapse_newlines (join nl markdown_output)))
      as (p & q & Hs & _ & _).
    rewrite H in Hs. rewrite <- !app_assoc in Hs. rewrite app_assoc in Hs.
    simpl in Hs. revert Hs. apply collapse_from_no_triple.
  - intros c. apply strip_head.
  - intros c. apply strip_last.
Qed.

(** ** The list-item pattern *)

Ltac char_classes :=
  unfold is_bullet, is_letter, isspace in *;
  repeat match goal with
         | H : _ |- _ =>
             progress (rewrite ?orb_true_iff, ?andb_true_iff, ?N.eqb_eq, ?N.leb_le in H)
         end;
  lia.

Ltac class_is_false :=
  match goal with
  | |- ?f ?c = false => destruct (f c) eqn:?; [exfalso; char_classes | reflexivity]
  end.

Lemma is_bullet_char c : is_bullet c = true <-> bullet_char c.
Proof.
  unfold is_bullet, bullet_char. rewrite !orb_true_iff, !N.eqb_eq. tauto.
Qed.

Lemma is_letter_ascii c : is_letter c = true <-> ascii_letter c.
Proof.
  unfold is_letter, ascii_letter.
  rewrite orb_true_iff, !andb_true_iff, !N.leb_le. tauto.
Qed.

Lemma isdecimal_digit c : isdecimal c = true <-> decimal_digit c.
Proof.
  unfold isdecimal, decimal_digit. rewrite existsb_exists.
  split; intros (z & Hz & Hc); exists z; (split; [exact Hz|]).
  - apply andb_true_iff in Hc as [H1 H2]. apply N.leb_le in H1, H2. lia.
  - apply andb_true_iff. split; apply N.leb_le; lia.
Qed.

Lemma forallb_decimal ds : forallb isdecimal ds = true <-> Forall decimal_digit ds.
Proof.
  induction ds as [|d ds IH]; simpl.
  - split; [constructor | reflexivity].
  - rewrite andb_true_iff, Forall_cons, IH, isdecimal_digit. reflexivity.
Qed.

(** No digit is white space, a bullet or a letter of the pattern. *)
Lemma digit_runs_clean :
  Forall (fun z => forall c, (z <= c <= z + 9)%N ->
            isspace c = false /\ is_bullet c = false /\ is_letter c = false)
         digit_zeros.
Proof.
  unfold digit_zeros.
  repeat (apply Forall_cons; split;
          [intros c Hc; repeat split; class_is_false|]).
  constructor.
Qed.

Lemma decimal_classes c :
  isdecimal c = true ->
  isspace c = false /\ is_bullet c = false /\ is_letter c = false.
Proof.
  intros H. apply isdecimal_digit in H as (z & Hz & Hc).
  pose proof digit_runs_clean as F. rewrite Forall_forall in F.
  apply (F z); [apply list_elem_of_In; exact Hz | exact Hc].
Qed.

Lemma bullet_no_space c : is_bullet c = true -> isspace c = false.
Proof. intros H. class_is_false. Qed.

Lemma decimal_no_space c : isdecimal c = true -> isspace c = false.
Proof. intros H. apply (decimal_classes c H). Qed.

Lemma letter_no_space c : is_letter c = true -> isspace c = false.
Proof. intros H. class_is_false. Qed.

Lemma decimal_no_bullet c : isdecimal c = true -> is_bullet c = false.
Proof. intros H. apply (decimal_classes c H). Qed.

Lemma letter_no_bullet c : is_letter c = true -> is_bullet c = false.
Proof. intros H. class_is_false. Qed.

Lemma letter_no_decimal c : is_letter c = true -> isdecimal c = false.
Proof.
  intros H. destruct (isdecimal c) eqn:E; [|reflexivity].
  destruct (decimal_classes c E) as (_ & _ & H'). congruence.
Qed.

Lemma skip_digits_split s :
  exists ds, s = ds ++ skip_digits s /\ forallb isdecimal ds = true.
Proof.
  induction s as [|c s (ds & Hs & Hds)]; simpl; [exists []; auto|].
  destruct (isdecimal c) eqn:Hc.
  - exists (c :: ds). simpl. rewrite Hc, Hds. split; [f_equal; exact Hs | reflexivity].
  - exists []. auto.
Qed.

Lemma skip_digits_dot ds rest :
  forallb isdecimal ds = true -> skip_digits (ds ++ 46%N :: rest) = 46%N :: rest.
Proof.
  induction ds as [|d ds IH]; simpl; [reflexivity|].
  rewrite andb_true_iff. intros [-> Hds]. apply IH, Hds.
Qed.

Lemma after_dot_Some s rest : after_dot s = Some rest <-> s = 46%N :: rest.
Proof.
  unfold after_dot. destruct s as [|c s]; [split; discriminate|].
  destruct (N.eqb_spec c 46) as [->|Hc]; split; congruence.
Qed.

Lemma match_marker_spec s rest :
  match_marker s = Some rest <-> exists m, is_marker m /\ s = m ++ rest.
Proof.
  split.
  - destruct s as [|c s]; simpl; [discriminate|].
    destruct (is_bullet c) eqn:Hb.
    { intros [= <-]. exists [c]. split; [|reflexivity].
      left. exists c. split; [apply is_bullet_char, Hb | reflexivity]. }
    destruct (isdecimal c) eqn:Hd.
    { intros H. apply after_dot_Some in H.
      destruct (skip_digits_split s) as (ds & Hs & Hds). rewrite H in Hs.
      exists (c :: ds ++ [46%N]). split.
      - right. left. exists c, ds. split; [|reflexivity].
        apply forallb_decimal. simpl. rewrite Hd, Hds. reflexivity.
      - simpl. rewrite <- app_assoc. simpl. f_equal. exact Hs. }
    destruct (is_letter c) eqn:Hl; [|discriminate].
    intros H. apply after_dot_Some in H. subst s.
    exists [c; 46%N]. split; [|reflexivity].
    right. right. exists c. split; [apply is_letter_ascii, Hl | reflexivity].
  - intros (m & [(c & Hc & ->)|[(d & ds & Hds & ->)|(c & Hc & ->)]] & ->); simpl.
    + apply is_bullet_char in Hc. rewrite Hc. reflexivity.
    + apply forallb_decimal in Hds. simpl in Hds.
      apply andb_true_iff in Hds as [Hd Hds].
      rewrite (decimal_no_bullet d Hd), Hd, <- app_assoc. simpl.
      rewrite (skip_digits_dot ds rest Hds). reflexivity.
    + apply is_letter_ascii in Hc.
      rewrite (letter_no_bullet c Hc), (letter_no_decimal c Hc), Hc. simpl. reflexivity.
Qed.

Lemma marker_head m : is_marker m -> exists c m', m = c :: m' /\ isspace c = false.
Proof.
  intros [(c & Hc & ->)|[(d & ds & Hds & ->)|(c & Hc & ->)]].
  - apply is_bullet_char in Hc. eauto using bullet_no_space.
  - apply Forall_cons in Hds as [Hd _]. apply isdecimal_digit in Hd.
    eauto using decimal_no_space.
  - apply is_letter_ascii in Hc. eauto using letter_no_space.
Qed.

Lemma lstrip_app_blank ws s : forallb isspace ws = true -> lstrip (ws ++ s) = lstrip s.
Proof.
  induction ws as [|c ws IH]; simpl; [reflexivity|].
  rewrite andb_true_iff. intros [-> Hws]. apply IH, Hws.
Qed.

Lemma lstrip_app_text t u : lstrip t <> [] -> lstrip (t ++ u) = lstrip t ++ u.
Proof.
  induction t as [|c t IH]; simpl; [congruence|].
  destruct (isspace c); [exact IH | reflexivity].
Qed.

(** [is_list_item] accepts exactly the texts made of white space, a marker
    (a bullet among [* - + •], or one or more Unicode decimal digits and a
    dot, or one letter of [a-zA-Z] and a dot), one white-space character,
    and anything after it. *)
Theorem is_list_item_spec (t : text) :
  is_list_item t = true <->
  exists ws m w rest,
    t = ws ++ m ++ w :: rest /\
    forallb isspace ws = true /\ is_marker m /\ isspace w = true.
Proof.
  unfold is_list_item. split.
  - destruct (match_marker (lstrip t)) as [[|w rest]|] eqn:E; try discriminate.
    intros Hw. apply match_marker_spec in E as (m & Hm & E).
    destruct (lstrip_split t) as (ws & Ht & Hws). rewrite E in Ht.
    exists ws, m, w, rest. auto.
  - intros (ws & m & w & rest & -> & Hws & Hm & Hw).
    rewrite (lstrip_app_blank ws _ Hws).
    destruct (marker_head m Hm) as (c & m' & -> & Hc). simpl. rewrite Hc.
    assert (match_marker (c :: m' ++ w :: rest) = Some (w :: rest)) as ->; [|exact Hw].
    apply match_marker_spec. exists (c :: m'). auto.
Qed.

(** A digit of another script counts as a digit: ARABIC-INDIC DIGIT THREE,
    a dot and a space open a list item. *)
Example list_item_with_arabic_digit :
  is_list_item (1635%N :: str ". item") = true.
Proof. reflexivity. Qed.

(** What [is_list_item] reads: leading white space is skipped, what follows
    a match does not matter, and a blank text is no list item. *)
Theorem is_list_item_reads_a_prefix :
  (forall ws t, forallb isspace ws = true -> is_list_item (ws ++ t) = is_list_item t) /\
  (forall t u, is_list_item t = true -> is_list_item (t ++ u) = true) /\
  (forall t, is_list_item t = true -> strip t <> []).
Proof.
  split; [|split].
  - intros ws t Hws. unfold is_list_item. rewrite (lstrip_app_blank ws t Hws). reflexivity.
  - intros t u. unfold is_list_item.
    destruct (match_marker (lstrip t)) as [[|w rest]|] eqn:E; try discriminate.
    intros Hw. apply match_marker_spec in E as (m & Hm & E).
    rewrite lstrip_app_text by (rewrite E; destruct m; discriminate).
    assert (match_marker (lstrip t ++ u) = Some (w :: rest ++ u)) as ->; [|exact Hw].
    apply match_marker_spec. exists m. split; [exact Hm|].
    rewrite E, <- app_assoc. reflexivity.
  - intros t H Hs. apply strip_nil in Hs. rewrite (blank_is_no_list_item t Hs) in H.
    discriminate.
Qed.

Lemma is_list_item_reads_a_prefix_witness :
  is_list_item (str "  " ++ str "12. item") = is_list_item (str "12. item") /\
  is_list_item (str "a. " ++ str "rest") = true /\
  (strip (str "- x") = [] -> False).
Proof.
  destruct is_list_item_reads_a_prefix as (Hws & Hpre & Hblank).
  split; [|split].
  - apply (Hws (str "  ") (str "12. item")). reflexivity.
  - apply (Hpre (str "a. ") (str "rest")). reflexivity.
  - apply (Hblank (str "- x")). reflexivity.
Defined.

(** ** Bold reassembly keeps the text *)

Lemma bold_step_shape acc p :
  bold_step acc p = acc ++ part_text p \/
  bold_step acc p = acc ++ str "**" ++ part_text p ++ str "**".
Proof.
  unfold bold_step. destruct (part_bold p); [|auto].
  destruct (negb _ && negb _); auto.
Qed.

Lemma fold_bold_step_filter parts acc :
  filter (fun c => c <> 42%N) (fold_left bold_step parts acc) =
  filter (fun c => c <> 42%N) acc ++
  filter (fun c => c <> 42%N) (line_text_raw parts).
Proof.
  unfold line_text_raw.
  revert acc; induction parts as [|p parts IH]; intros acc; simpl.
  - rewrite app_nil_r. reflexivity.
  - rewrite IH, (filter_app _ (part_text p)), app_assoc. f_equal.
    destruct (bold_step_shape acc p) as [-> | ->]; rewrite !filter_app.
    + reflexivity.
    + change (filter _ (str "**")) with (@nil N). rewrite app_nil_r. reflexivity.
Qed.

Lemma fold_bold_step_elem parts acc c :
  c ∈ acc \/ c ∈ line_text_raw parts -> c ∈ fold_left bold_step parts acc.
Proof.
  unfold line_text_raw.
  revert acc; induction parts as [|p parts IH]; intros acc; simpl.
  - rewrite elem_of_nil. tauto.
  - rewrite elem_of_app. intros H. apply IH.
    destruct (bold_step_shape acc p) as [-> | ->]; rewrite !elem_of_app; tauto.
Qed.

Lemma fold_bold_step_plain parts acc :
  Forall (fun p => part_bold p = false) parts ->
  fold_left bold_step parts acc = acc ++ line_text_raw parts.
Proof.
  unfold line_text_raw.
  revert acc; induction parts as [|p parts IH]; intros acc Hp; simpl.
  - rewrite app_nil_r. reflexivity.
  - apply Forall_cons in Hp as [Hp Hps]. rewrite (IH _ Hps).
    unfold bold_step. rewrite Hp, <- app_assoc. reflexivity.
Qed.

(** Bold reassembly only ever adds asterisks: with the asterisks left out,
    the reassembled line and the raw line are the same text; and a line
    without a bold span is reassembled as it is. *)
Theorem processed_line_keeps_text :
  (forall parts,
     filter (fun c => c <> 42%N) (processed_line parts) =
     filter (fun c => c <> 42%N) (line_text_raw parts)) /\
  (forall parts,
     Forall (fun p => part_bold p = false) parts ->
     processed_line parts = line_text_raw parts).
Proof.
  split.
  - intros parts. apply (fold_bold_step_filter parts []).
  - intros parts Hp. apply (fold_bold_step_plain parts [] Hp).
Qed.

Lemma processed_line_keeps_text_witness :
  filter (fun c => c <> 42%N) (processed_line [Part (str "a*b") 10 true]) =
  filter (fun c => c <> 42%N) (line_text_raw [Part (str "a*b") 10 true]) /\
  processed_line [Part (str "a") 10 false; Part (str "b") 12 false] =
  line_text_raw [Part (str "a") 10 false; Part (str "b") 12 false].
Proof.
  split.
  - apply (proj1 processed_line_keeps_text).
  - apply (proj2 processed_line_keeps_text). repeat constructor.
Defined.

Lemma processed_line_not_blank parts :
  strip (line_text_raw parts) <> [] -> strip (processed_line parts) <> [].
Proof.
  intros Hraw Hproc. apply Hraw. apply strip_nil in Hproc. apply strip_nil.
  apply forallb_forall. intros c Hc.
  rewrite forallb_forall in Hproc. apply Hproc.
  apply list_elem_of_In. apply (fold_bold_step_elem parts []). right.
  apply list_elem_of_In. exact Hc.
Qed.

(** ** Paragraph assembly *)

Lemma endswith_nl s : endswith s nl = true <-> last s = Some 10%N.
Proof.
  unfold endswith. destruct s as [|c s _] using rev_ind; [split; discriminate|].
  rewrite rev_app_distr, last_snoc. simpl.
  assert (startswith (rev s) [] = true) as -> by (destruct (rev s); reflexivity).
  rewrite andb_true_r, N.eqb_eq. split; congruence.
Qed.

Lemma endswith_nl_app_strip cp s :
  endswith cp nl = false -> endswith (cp ++ str " ") nl = false ->
  endswith (cp ++ strip s) nl = false.
Proof.
  intros Hcp Hsp. destruct (endswith (cp ++ strip s) nl) eqn:E; [|reflexivity].
  apply endswith_nl in E.
  destruct (strip s) as [|c t] eqn:Hs using rev_ind.
  - rewrite app_nil_r in E. apply endswith_nl in E. congruence.
  - rewrite app_assoc, last_snoc in E. injection E as ->.
    assert (isspace 10%N = false) as H; [|discriminate H].
    apply (strip_last s). rewrite Hs. apply last_snoc.
Qed.

Lemma endswith_nl_space cp : endswith (cp ++ str " ") nl = false.
Proof.
  destruct (endswith (cp ++ str " ") nl) eqn:E; [|reflexivity].
  apply endswith_nl in E. change (str " ") with [32%N] in E.
  rewrite last_snoc in E. discriminate.
Qed.

Lemma assemble_line_paragraph st parts :
  endswith (current_paragraph st) nl = false ->
  endswith (current_paragraph (assemble_line st parts)) nl = false.
Proof.
  intros Hcp. unfold assemble_line.
  destruct (is_list_item (line_text_raw parts)); [rewrite append_flush_spec; reflexivity|].
  destruct (negb (is_nil (strip (line_text_raw parts)))); [|exact Hcp].
  cbn [current_paragraph]. rewrite Hcp.
  destruct (current_paragraph st) as [|c cp]; cbn [is_nil negb andb].
  - apply endswith_nl_app_strip; reflexivity.
  - apply endswith_nl_app_strip; apply endswith_nl_space.
Qed.

Lemma assemble_lines_paragraph lines st :
  endswith (current_paragraph st) nl = false ->
  endswith (current_paragraph (fold_left assemble_line lines st)) nl = false.
Proof.
  revert st; induction lines as [|parts lines IH]; intros st H; simpl; [exact H|].
  apply IH, assemble_line_paragraph, H.
Qed.

(** The open paragraph never ends with a newline: a block leaves it so if it
    finds it so, and a page starts with no paragraph open.  The test
    [not current_paragraph.endswith("\n")] of line 226 therefore never keeps
    the separating space from being added. *)
Theorem open_paragraph_never_ends_with_newline
    (pn : nat) (body : Z) (hl : gmap Z nat) (st st' : state) (ib : nat * block) :
  endswith (current_paragraph st) nl = false ->
  process_block pn body hl st ib = Ok st' ->
  endswith (current_paragraph st') nl = false.
Proof.
  destruct ib as [i b]. intros Hcp. unfold process_block.
  destruct (negb (is_text_block b)); [intros [= <-]; exact Hcp|].
  intros H. apply bind_Ok in H as (st1 & H1 & [= <-]).
  assert (endswith (current_paragraph st1) nl = false) as Hst1.
  { apply paragraph_spacing_cases in H1 as [->|(_ & _ & _ & ->)]; [exact Hcp|].
    rewrite append_flush_spec. reflexivity. }
  unfold emit_block. simpl. unfold classify_block.
  destruct (hl !! _) as [level|].
  - destruct (negb (is_nil (heading_text _))).
    + rewrite append_flush_spec. reflexivity.
    + apply assemble_lines_paragraph, Hst1.
  - apply assemble_lines_paragraph, Hst1.
Qed.

Lemma open_paragraph_never_ends_with_newline_witness :
  endswith (str "Hello World") nl = false.
Proof.
  apply (open_paragraph_never_ends_with_newline 0 10 ∅
           (State [page_marker 0] (str "Hello") 10)
           (State [page_marker 0] (str "Hello World") 30)
           (1%nat, mk_block [[mk_span "World" 10 0]] 12 30)).
  - reflexivity.
  - vm_compute. reflexivity.
Defined.

Lemma join_snoc (sep : text) (pre : list text) (x : text) (rest : list text) :
  (pre = [] \/ exists p, pre = [p]) ->
  join sep ([join sep (pre ++ [x])] ++ rest) = join sep (pre ++ [x] ++ rest).
Proof.
  intros [->|[p ->]]; [reflexivity|]. cbn [join app].
  destruct rest as [|r rest]; [reflexivity|]. rewrite <- !app_assoc. reflexivity.
Qed.

Lemma assemble_line_plain st parts :
  is_list_item (line_text_raw parts) = false ->
  strip (line_text_raw parts) <> [] ->
  endswith (current_paragraph st) nl = false ->
  assemble_line st parts =
  State (markdown_output st)
        (join (str " ")
              ((if is_nil (current_paragraph st) then [] else [current_paragraph st]) ++
               [strip (processed_line parts)]))
        (last_block_bottom st).
Proof.
  intros Hli Hraw Hcp. unfold assemble_line. rewrite Hli, Hcp.
  destruct (strip (line_text_raw parts)) as [|r raw]; [congruence|].
  cbn [is_nil negb]. generalize (str " "). intros sep.
  destruct (current_paragraph st) as [|c cp]; cbn [is_nil negb andb join app].
  - reflexivity.
  - rewrite <- app_assoc. reflexivity.
Qed.

(** Lines that are neither list items nor blank are merged into the open
    paragraph with one space between them, and emit nothing: after them the
    paragraph is the paragraph that was open, if any, and the stripped
    reassembled lines, joined by single spaces. *)
Theorem plain_lines_are_joined_by_spaces (lines : list (list part)) (st : state) :
  Forall (fun parts => is_list_item (line_text_raw parts) = false /\
                       strip (line_text_raw parts) <> []) lines ->
  endswith (current_paragraph st) nl = false ->
  fold_left assemble_line lines st =
  State (markdown_output st)
        (join (str " ")
              ((if is_nil (current_paragraph st) then [] else [current_paragraph st]) ++
               map (fun parts => strip (processed_line parts)) lines))
        (last_block_bottom st).
Proof.
  revert st; induction lines as [|parts lines IH]; intros st Hl Hcp.
  - destruct st as [out [|c cp] bottom]; reflexivity.
  - apply Forall_cons in Hl as [[Hli Hraw] Hl].
    pose proof (processed_line_not_blank parts Hraw) as Hproc.
    pose proof (assemble_line_paragraph st parts Hcp) as Hcp'.
    cbn [fold_left map]. rewrite (IH _ Hl Hcp'). clear IH Hcp'.
    rewrite (assemble_line_plain st parts Hli Hraw Hcp).
    cbn [markdown_output current_paragraph last_block_bottom]. f_equal.
    set (x := strip (processed_line parts)) in *.
    set (pre := if is_nil (current_paragraph st) then [] else [current_paragraph st]).
    assert (pre = [] \/ exists p, pre = [p]) as Hpre.
    { unfold pre. destruct (is_nil (current_paragraph st)); eauto. }
    assert (is_nil (join (str " ") (pre ++ [x])) = false) as ->.
    { destruct Hpre as [->|[p ->]]; cbn [join app].
      - destruct x; [congruence | reflexivity].
      - destruct p; [destruct (str " "); [destruct x; [congruence|]|]|]; reflexivity. }
    rewrite (join_snoc (str " ") pre x _ Hpre). reflexivity.
Qed.

Lemma plain_lines_are_joined_by_spaces_witness :
  fold_left assemble_line
            [[Part (str "Hello") 10 false]; [Part (str "World") 10 true]]
            (State [page_marker 0] (str "Oh") 0) =
  State [page_marker 0] (str "Oh Hello **World**") 0.
Proof.
  apply (plain_lines_are_joined_by_spaces
           [[Part (str "Hello") 10 false]; [Part (str "World") 10 true]]
           (State [page_marker 0] (str "Oh") 0)).
  - repeat constructor; discriminate.
  - reflexivity.
Defined.

(** Each line that is a list item becomes a fragment of its own: a run of
    list-item lines flushes the open paragraph once, appends one fragment per
    line, in order, and leaves no paragraph open. *)
Theorem list_lines_are_separate_fragments
    (parts : list part) (lines : list (list part)) (st : state) :
  Forall (fun parts => is_list_item (line_text_raw parts) = true) (parts :: lines) ->
  fold_left assemble_line (parts :: lines) st =
  State (markdown_output st ++ flushed st ++
         map (fun parts => strip (processed_line parts) ++ nl) (parts :: lines))
        [] (last_block_bottom st).
Proof.
  intros Hl. apply Forall_cons in Hl as [Hp Hl]. simpl.
  unfold assemble_line at 2. rewrite Hp, append_flush_spec.
  assert (forall out bottom,
            fold_left assemble_line lines (State out [] bottom) =
            State (out ++ map (fun parts => strip (processed_line parts) ++ nl) lines)
                  [] bottom) as H.
  { clear st parts Hp. induction lines as [|parts lines IH]; intros out bottom; simpl.
    - rewrite app_nil_r. reflexivity.
    - apply Forall_cons in Hl as [Hp Hl]. unfold assemble_line at 2.
      rewrite Hp, append_flush_spec. simpl. rewrite (IH Hl), <- app_assoc. reflexivity. }
  rewrite H, <- !app_assoc. reflexivity.
Qed.

Lemma list_lines_are_separate_fragments_witness :
  fold_left assemble_line
            [[Part (str "- one") 10 false]; [Part (str "2. two") 10 false]]
            (State [page_marker 0] (str "open") 0) =
  State [page_marker 0; str "open" ++ nl; str "- one" ++ nl; str "2. two" ++ nl] [] 0.
Proof.
  apply (list_lines_are_separate_fragments
           [Part (str "- one") 10 false] [[Part (str "2. two") 10 false]]
           (State [page_marker 0] (str "open") 0)).
  repeat constructor.
Defined.

(** ** The output only grows *)

Lemma grows_refl st : grows st st.
Proof. exists []. rewrite app_nil_r. split; [reflexivity | constructor]. Qed.

Lemma grows_trans st1 st2 st3 : grows st1 st2 -> grows st2 st3 -> grows st1 st3.
Proof.
  intros (c1 & H1 & F1) (c2 & H2 & F2). exists (c1 ++ c2).
  rewrite H2, H1, app_assoc. split; [reflexivity|]. apply Forall_app; auto.
Qed.

Lemma fragment_ok_nl (s : text) : fragment_ok (s ++ nl).
Proof. right. apply last_snoc. Qed.

Lemma flushed_ok st : Forall fragment_ok (flushed st).
Proof.
  unfold flushed. destruct (is_nil (current_paragraph st)); [constructor|].
  constructor; [apply fragment_ok_nl | constructor].
Qed.

Lemma grows_flush st : grows st (flush_paragraph st).
Proof.
  exists (flushed st). rewrite flush_paragraph_spec. split; [reflexivity | apply flushed_ok].
Qed.

Lemma grows_flush_append st fragment :
  fragment_ok fragment -> grows st (append_fragment (flush_paragraph st) fragment).
Proof.
  intros Hf. exists (flushed st ++ [fragment]). rewrite append_flush_spec.
  split; [reflexivity|]. apply Forall_app. split; [apply flushed_ok|].
  constructor; [exact Hf | constructor].
Qed.

Lemma heading_fragment_ok level h : fragment_ok (heading_fragment level h).
Proof.
  unfold heading_fragment. rewrite !app_assoc. apply fragment_ok_nl.
Qed.

Lemma page_marker_ok n : fragment_ok (page_marker n).
Proof. unfold page_marker. rewrite !app_assoc. apply fragment_ok_nl. Qed.

Lemma grows_assemble_lines lines st : grows st (fold_left assemble_line lines st).
Proof.
  revert st; induction lines as [|parts lines IH]; intros st; simpl; [apply grows_refl|].
  eapply grows_trans; [|apply IH]. unfold assemble_line.
  destruct (is_list_item _); [apply grows_flush_append, fragment_ok_nl|].
  destruct (negb _); [|apply grows_refl].
  exists []. simpl. rewrite app_nil_r. split; [reflexivity | constructor].
Qed.

Lemma grows_emit_block body hl b st : grows st (emit_block body hl b st).
Proof.
  assert (forall avg lines, grows st (classify_block hl avg lines st)) as H.
  { intros avg lines. unfold classify_block. destruct (hl !! avg) as [level|].
    - destruct (negb _); [apply grows_flush_append, heading_fragment_ok|].
      apply grows_assemble_lines.
    - apply grows_assemble_lines. }
  unfold emit_block.
  destruct (H (block_avg_size body (collect_block body b))
              (block_text_lines (collect_block body b))) as (c & Hc & Fc).
  exists c. simpl. auto.
Qed.

Lemma grows_process_block pn body hl st ib st' :
  process_block pn body hl st ib = Ok st' -> grows st st'.
Proof.
  destruct ib as [i b]. unfold process_block.
  destruct (negb (is_text_block b)); [intros [= <-]; apply grows_refl|].
  intros H. apply bind_Ok in H as (st1 & H1 & [= <-]).
  apply (grows_trans _ st1); [|apply grows_emit_block].
  apply paragraph_spacing_cases in H1 as [->|(_ & _ & _ & ->)]; [apply grows_refl|].
  apply grows_flush_append. left. reflexivity.
Qed.

Lemma process_page_Some st n p body hl st' :
  determine_font_styles p = Ok (Some body, hl) ->
  process_page st (n, p) = Ok st' ->
  exists content,
    markdown_output st' = markdown_output st ++ page_marker n :: content /\
    Forall fragment_ok content.
Proof.
  intros Hp H. unfold process_page in H. rewrite Hp in H. cbn [mbind result_bind bind] in H.
  apply bind_Ok in H as (st1 & H1 & [= <-]).
  assert (grows (State (markdown_output st ++ [page_marker n]) [] (last_block_bottom st)) st1)
    as Hg.
  { refine (foldM_invariant (grows _) _ _ _ _ _ (grows_refl _) H1).
    intros a x a' Ha Hx. apply (grows_trans _ a); [exact Ha|].
    apply (grows_process_block _ _ _ _ _ _ Hx). }
  destruct (grows_trans _ _ _ Hg (grows_flush st1)) as (c & Hc & Fc).
  exists c. rewrite Hc. simpl. rewrite <- app_assoc. auto.
Qed.

Lemma grows_process_page st np st' : process_page st np = Ok st' -> grows st st'.
Proof.
  destruct np as [n p]. intros H.
  destruct (determine_font_styles p) as [[[body|] hl]|e] eqn:Hp.
  - destruct (process_page_Some st n p body hl st' Hp H) as (c & Hc & Fc).
    exists (page_marker n :: c). split; [exact Hc|].
    constructor; [apply page_marker_ok | exact Fc].
  - unfold process_page in H. rewrite Hp in H. injection H as <-. apply grows_refl.
  - unfold process_page in H. rewrite Hp in H. discriminate.
Qed.

Lemma foldM_enumerate_app {A B} (f : A -> nat * B -> result A) (l1 l2 : list B) k a :
  foldM f (zip (seq k (length (l1 ++ l2))) (l1 ++ l2)) a =
  (foldM f (zip (seq k (length l1)) l1) a ≫=
   foldM f (zip (seq (k + length l1) (length l2)) l2)).
Proof.
  revert k a; induction l1 as [|x l1 IH]; intros k a; simpl.
  - rewrite Nat.add_0_r. reflexivity.
  - destruct (f a (k, x)) as [a1|e]; simpl; [|reflexivity].
    rewrite IH. replace (S k + length l1)%nat with (k + S (length l1))%nat by lia.
    reflexivity.
Qed.

Lemma convert_fragments_ok doc out :
  convert_pdf_to_markdown doc = Ok out -> Forall fragment_ok out.
Proof.
  intros H. unfold convert_pdf_to_markdown in H.
  apply bind_Ok in H as (st & H & [= <-]). unfold run in H.
  assert (grows initial_state st) as (c & Hc & Fc); [|rewrite Hc; exact Fc].
  refine (foldM_invariant (grows initial_state) _ _ _ _ _ (grows_refl _) H).
  intros a x a' Ha Hx. apply (grows_trans _ a); [exact Ha|].
  apply (grows_process_page _ _ _ Hx).
Qed.

(** Fragments are only ever appended.  A block and a page leave the output
    they find as a prefix of the output they return, and the output of a run
    over the first pages of a document is a prefix of the output of the run
    over the whole document.  Every fragment of a run is blank or ends with
    a newline. *)
Theorem output_is_append_only :
  (forall pn body hl st ib st',
     process_block pn body hl st ib = Ok st' ->
     markdown_output st `prefix_of` markdown_output st') /\
  (forall st np st',
     process_page st np = Ok st' ->
     markdown_output st `prefix_of` markdown_output st') /\
  (forall doc1 doc2 out1 out2,
     convert_pdf_to_markdown doc1 = Ok out1 ->
     convert_pdf_to_markdown (doc1 ++ doc2) = Ok out2 ->
     out1 `prefix_of` out2) /\
  (forall doc out,
     convert_pdf_to_markdown doc = Ok out -> Forall fragment_ok out).
Proof.
  split; [|split; [|split]].
  - intros pn body hl st ib st' H.
    destruct (grows_process_block _ _ _ _ _ _ H) as (c & Hc & _). exists c. exact Hc.
  - intros st np st' H. destruct (grows_process_page _ _ _ H) as (c & Hc & _).
    exists c. exact Hc.
  - intros doc1 doc2 out1 out2 H1 H2. unfold convert_pdf_to_markdown in *.
    apply bind_Ok in H1 as (st1 & H1 & [= <-]).
    apply bind_Ok in H2 as (st2 & H2 & [= <-]).
    unfold run, enumerate in H1, H2. rewrite foldM_enumerate_app, H1 in H2.
    cbn [mbind result_bind bind] in H2.
    assert (grows st1 st2) as (c & Hc & _); [|exists c; exact Hc].
    refine (foldM_invariant (grows st1) _ _ _ _ _ (grows_refl _) H2).
    intros a x a' Ha Hx. apply (grows_trans _ a); [exact Ha|].
    apply (grows_process_page _ _ _ Hx).
  - apply convert_fragments_ok.
Qed.

Lemma output_is_append_only_witness :
  [page_marker 0; str "# Title" ++ nl; str "Hello **World**" ++ nl;
   str "- item" ++ nl; str "tail" ++ nl]
  `prefix_of`
  [page_marker 0; str "# Title" ++ nl; str "Hello **World**" ++ nl;
   str "- item" ++ nl; str "tail" ++ nl;
   page_marker 1; str "Intro" ++ nl; []; str "World" ++ nl].
Proof.
  apply (proj1 (proj2 (proj2 output_is_append_only)) [titled_page] [spaced_page]).
  - vm_compute. reflexivity.
  - vm_compute. reflexivity.
Defined.

(** ** Page markers *)

(** The output of a run is empty or begins with a page marker, and a page
    whose text blocks hold a span has its marker in the output, numbered by
    the position of the page in the document, skipped pages counted. *)
Theorem page_markers_number_the_pages :
  (forall doc out,
     convert_pdf_to_markdown doc = Ok out ->
     out = [] \/ exists n rest, out = page_marker n :: rest) /\
  (forall doc out i p,
     convert_pdf_to_markdown doc = Ok out ->
     doc !! i = Some p -> text_spans (get_text p) <> [] ->
     page_marker i ∈ out).
Proof.
  split.
  - intros doc out H. unfold convert_pdf_to_markdown in H.
    apply bind_Ok in H as (st & H & [= <-]). unfold run in H.
    refine (foldM_invariant
              (fun s => markdown_output s = [] \/
                        exists n rest, markdown_output s = page_marker n :: rest)
              _ _ _ _ _ _ H); [|left; reflexivity].
    intros a [n p] a' Ha Hx.
    destruct (determine_font_styles p) as [[[body|] hl]|e] eqn:Hp.
    + destruct (process_page_Some a n p body hl a' Hp Hx) as (c & -> & _).
      right. destruct Ha as [->|(m & rest & ->)]; simpl; eauto.
    + unfold process_page in Hx. rewrite Hp in Hx. injection Hx as <-. exact Ha.
    + unfold process_page in Hx. rewrite Hp in Hx. discriminate.
  - intros doc out i p H Hi Hspans. unfold convert_pdf_to_markdown in H.
    apply bind_Ok in H as (st & H & [= <-]). unfold run, enumerate in H.
    rewrite <- (take_drop_middle doc i p Hi) in H.
    rewrite foldM_enumerate_app in H. apply bind_Ok in H as (st1 & _ & H).
    simpl in H. apply bind_Ok in H as (st2 & Hpage & H).
    assert (length (take i doc) = i) as Hlen.
    { rewrite length_take. apply lookup_lt_Some in Hi. lia. }
    rewrite Hlen in Hpage.
    assert (exists body hl, determine_font_styles p = Ok (Some body, hl)) as (body & hl & Hp).
    { unfold process_page in Hpage.
      destruct (determine_font_styles p) as [r|e] eqn:Hp; [|discriminate].
      apply determine_font_styles_Ok in Hp as [_ ->]. unfold profile.
      rewrite (is_nil_false _ Hspans). eauto. }
    destruct (process_page_Some st1 i p body hl st2 Hp Hpage) as (c & Hc & _).
    assert (grows st2 st) as (c' & -> & _).
    { refine (foldM_invariant (grows st2) _ _ _ _ _ (grows_refl _) H).
      intros a x a' Ha Hx. apply (grows_trans _ a); [exact Ha|].
      apply (grows_process_page _ _ _ Hx). }
    rewrite Hc, !elem_of_app, elem_of_cons. auto.
Qed.

Lemma page_markers_number_the_pages_witness :
  page_marker 1 ∈ [page_marker 1; []; str "Hello" ++ nl].
Proof.
  apply (proj2 page_markers_number_the_pages
           [image_page; mk_page [mk_block [[mk_span "Hello" 10 0]] 20 30]]
           _ 1%nat (mk_page [mk_block [[mk_span "Hello" 10 0]] 20 30])).
  - vm_compute. reflexivity.
  - reflexivity.
  - vm_compute. discriminate.
Defined.

(** ** The bottom edge carried from block to block *)

Lemma foldM_blocks_bottom pn body hl bs k st st' :
  foldM (process_block pn body hl) (zip (seq k (length bs)) bs) st = Ok st' ->
  last_block_bottom st' =
  match last (filter (fun b => is_text_block b = true) bs) with
  | Some b => y1 (get (block_bbox b) zero_bbox)
  | None => last_block_bottom st
  end.
Proof.
  revert k st; induction bs as [|b bs IH]; intros k st; simpl.
  - intros [= <-]. reflexivity.
  - intros H. apply bind_Ok in H as (st1 & Hb & H). rewrite (IH _ _ H).
    rewrite filter_cons. unfold process_block in Hb.
    destruct (is_text_block b) eqn:Htext; simpl in Hb.
    + rewrite decide_True by reflexivity.
      apply bind_Ok in Hb as (st0 & _ & [= <-]). rewrite last_cons.
      destruct (last (filter _ bs)); reflexivity.
    + rewrite decide_False by discriminate. injection Hb as <-. reflexivity.
Qed.

(** After a page that is processed, [last_block_bottom] is the bottom edge of
    the last text block of the page in reading order (0 when that block has
    no bounding box); a page without a text block, like a page that is
    skipped, leaves it as it was. *)
Theorem last_block_bottom_is_last_text_block
    (st st' : state) (n : nat) (p : page) :
  process_page st (n, p) = Ok st' ->
  last_block_bottom st' =
  match determine_font_styles p with
  | Ok (Some _, _) =>
      match last (filter (fun b => is_text_block b = true) (get_text_sorted p)) with
      | Some b => y1 (get (block_bbox b) zero_bbox)
      | None => last_block_bottom st
      end
  | _ => last_block_bottom st
  end.
Proof.
  unfold process_page.
  destruct (determine_font_styles p) as [[[body|] hl]|e]; simpl;
    [|intros [= <-]; reflexivity | discriminate].
  intros H. apply bind_Ok in H as (st1 & H1 & [= <-]).
  rewrite flush_paragraph_spec. simpl.
  apply (foldM_blocks_bottom _ _ _ _ _ _ _ H1).
Qed.

Lemma last_block_bottom_is_last_text_block_witness :
  last_block_bottom
    (State [page_marker 0; str "# Title" ++ nl; str "Hello **World**" ++ nl;
            str "- item" ++ nl; str "tail" ++ nl] [] 60) =
  match determine_font_styles titled_page with
  | Ok (Some _, _) =>
      match last (filter (fun b => is_text_block b = true) (get_text_sorted titled_page)) with
      | Some b => y1 (get (block_bbox b) zero_bbox)
      | None => last_block_bottom initial_state
      end
  | _ => last_block_bottom initial_state
  end.
Proof.
  apply (last_block_bottom_is_last_text_block initial_state _ 0%nat titled_page).
  vm_compute. reflexivity.
Defined.

(** ** More on the style profiler *)

(** On a page whose spans all have the same rounded size, that size is the
    body size and no size is a heading. *)
Theorem single_size_page_has_no_heading (p : page) (s : Z) :
  well_formed (get_text p) = true ->
  text_spans (get_text p) <> [] ->
  Forall (fun sp => rounded_size sp = s) (text_spans (get_text p)) ->
  determine_font_styles p = Ok (Some s, ∅).
Proof.
  intros Hwf Hne Hall. rewrite (determine_font_styles_wf p Hwf). unfold profile.
  rewrite (is_nil_false _ Hne).
  assert (forall t, t ∈ span_sizes (get_text p) -> t = s) as Hs.
  { intros t Ht. unfold span_sizes in Ht. apply list_elem_of_fmap in Ht as (sp & -> & Hsp).
    rewrite Forall_forall in Hall. apply Hall, Hsp. }
  destruct (spec_body_size_heaviest _ Hne) as [Hbody _].
  rewrite (Hs _ Hbody). do 2 f_equal. apply map_empty. intros t.
  destruct (assign_levels _ 1 ∅ !! t) as [l|] eqn:E; [|reflexivity].
  apply heading_levels_rank in E as (Ht & Hgt & _). rewrite (Hs _ Ht) in Hgt. lia.
Qed.

Lemma single_size_page_has_no_heading_witness :
  determine_font_styles spaced_page = Ok (Some 10, ∅).
Proof.
  apply (single_size_page_has_no_heading spaced_page 10).
  - vm_compute. reflexivity.
  - vm_compute. discriminate.
  - vm_compute. repeat constructor.
Defined.

Lemma filter_above_le (L : list Z) s1 s2 :
  s1 < s2 ->
  (length (filter (fun t => (s2 < t)%Z) L) <= length (filter (fun t => (s1 < t)%Z) L))%nat.
Proof.
  intros Hs. induction L as [|x L IH]; [reflexivity|].
  rewrite !filter_cons. destruct (decide (s2 < x)).
  - rewrite decide_True by lia. simpl. lia.
  - destruct (decide (s1 < x)); simpl; lia.
Qed.

Lemma filter_above_lt (L : list Z) s1 s2 :
  s1 < s2 -> s2 ∈ L ->
  (length (filter (fun t => (s2 < t)%Z) L) < length (filter (fun t => (s1 < t)%Z) L))%nat.
Proof.
  intros Hs. induction L as [|x L IH]; intros Hin; [apply elem_of_nil in Hin as []|].
  rewrite !filter_cons. apply elem_of_cons in Hin as [<-|Hin].
  - rewrite decide_False by lia. rewrite decide_True by lia. simpl.
    pose proof (filter_above_le L s1 s2 Hs). lia.
  - specialize (IH Hin). destruct (decide (s2 < x)).
    + rewrite decide_True by lia. simpl. lia.
    + destruct (decide (s1 < x)); simpl; lia.
Qed.

Lemma assign_levels_size cands lvl (m : gmap Z nat) :
  NoDup cands -> (forall c, c ∈ cands -> m !! c = None) ->
  size (assign_levels cands lvl m) = (size m + Nat.min (length cands) (4 - lvl))%nat.
Proof.
  revert lvl m; induction cands as [|c cands IH]; intros lvl m Hnd Hm; simpl.
  - lia.
  - apply NoDup_cons in Hnd as [Hc Hnd]. destruct (Nat.leb_spec lvl 3) as [Hle|Hgt].
    + rewrite (IH _ _ Hnd).
      * rewrite map_size_insert_None by (apply Hm, elem_of_cons; auto).
        replace (4 - lvl)%nat with (S (4 - S lvl)) by lia. simpl. lia.
      * intros c' Hc'. rewrite lookup_insert_ne by congruence.
        apply Hm, elem_of_cons. auto.
    + replace (4 - lvl)%nat with 0%nat by lia. lia.
Qed.

(** The levels follow the sizes: of two heading sizes the larger has the
    smaller level; the body size is no heading; and the map has as many
    entries as there are distinct sizes above [body_size + 1], up to three. *)
Theorem heading_levels_follow_sizes (p : page) (body : Z) (hl : gmap Z nat) :
  determine_font_styles p = Ok (Some body, hl) ->
  (forall s1 s2 l1 l2,
     hl !! s1 = Some l1 -> hl !! s2 = Some l2 -> s1 < s2 -> (l2 < l1)%nat) /\
  hl !! body = None /\
  size hl =
  Nat.min 3 (length (filter (fun s => body + 1 < s)
                            (remove_dups (span_sizes (get_text p))))).
Proof.
  intros H. apply determine_font_styles_Ok in H as [_ H].
  unfold profile in H. destruct (is_nil (text_spans (get_text p))); [discriminate|].
  injection H as -> ->. split; [|split].
  - intros s1 s2 l1 l2 H1 H2 Hs.
    apply heading_levels_rank in H1 as (_ & _ & -> & _).
    apply heading_levels_rank in H2 as (Hin & _ & -> & _).
    apply -> Nat.succ_lt_mono. apply filter_above_lt; [exact Hs|].
    apply elem_of_remove_dups, Hin.
  - destruct (assign_levels _ 1 ∅ !! _) as [l|] eqn:E; [|reflexivity].
    apply heading_levels_rank in E as (_ & Hgt & _). lia.
  - destruct (heading_candidates_spec (span_sizes (get_text p))
                (spec_body_size (get_text p))) as (_ & Hnd & _ & _).
    rewrite (assign_levels_size _ 1 ∅ Hnd) by (intros; apply lookup_empty).
    rewrite map_size_empty. unfold heading_candidates.
    rewrite (Permutation_length (merge_sort_Permutation _ _)).
    change (4 - 1)%nat with 3%nat. lia.
Qed.

Lemma heading_levels_follow_sizes_witness :
  (forall s1 s2 l1 l2,
     (<[14 := 3%nat]> (<[18 := 2%nat]> (<[24 := 1%nat]> ∅)) : gmap Z nat) !! s1 = Some l1 ->
     (<[14 := 3%nat]> (<[18 := 2%nat]> (<[24 := 1%nat]> ∅)) : gmap Z nat) !! s2 = Some l2 ->
     s1 < s2 -> (l2 < l1)%nat) /\
  (<[14 := 3%nat]> (<[18 := 2%nat]> (<[24 := 1%nat]> ∅)) : gmap Z nat) !! 10 = None /\
  size (<[14 := 3%nat]> (<[18 := 2%nat]> (<[24 := 1%nat]> ∅)) : gmap Z nat) =
  Nat.min 3 (length (filter (fun s => 10 + 1 < s)
                            (remove_dups (span_sizes (get_text sample_page))))).
Proof.
  apply (heading_levels_follow_sizes sample_page 10). vm_compute. reflexivity.
Defined.

Lemma foldM_Raise {A B} (f : A -> B -> result A) l a e :
  foldM f l a = Raise e -> exists a' x, f a' x = Raise e.
Proof.
  revert a; induction l as [|x l IH]; intros a; simpl; [discriminate|].
  destruct (f a x) as [a1|e1] eqn:E; simpl; [apply IH|].
  intros [= <-]. eauto.
Qed.

Lemma getitem_Raise {A} (field : option A) key e :
  getitem field key = Raise e -> e = KeyError key.
Proof. destruct field; simpl; [discriminate | congruence]. Qed.

Lemma sizes_block_Raise acc b e :
  sizes_block acc b = Raise e -> exists key, key ∈ profiler_keys /\ e = KeyError key.
Proof.
  assert (forall k, In k profiler_keys -> k ∈ profiler_keys) as Hin
    by (intros k; apply list_elem_of_In).
  unfold sizes_block.
  destruct (getitem (block_type b) (str "type")) as [ty|e1] eqn:Ety; simpl.
  2: { intros [= <-]. apply getitem_Raise in Ety. eexists. split; [|exact Ety].
       apply Hin. simpl. auto. }
  destruct (ty =? 0); [|discriminate].
  destruct (getitem (block_lines b) (str "lines")) as [lines|e1] eqn:Elines; simpl.
  2: { intros [= <-]. apply getitem_Raise in Elines. eexists. split; [|exact Elines].
       apply Hin. simpl. auto. }
  intros H. apply foldM_Raise in H as (acc1 & ln & H). unfold sizes_line in H.
  destruct (getitem (line_spans ln) (str "spans")) as [spans|e1] eqn:Espans; simpl in H.
  2: { injection H as <-. apply getitem_Raise in Espans. eexists. split; [|exact Espans].
       apply Hin. simpl. auto. }
  apply foldM_Raise in H as (acc2 & sp & H). unfold sizes_span in H.
  destruct (getitem (span_size sp) (str "size")) as [sz|e1] eqn:Esize; simpl in H.
  2: { injection H as <-. apply getitem_Raise in Esize. eexists. split; [|exact Esize].
       apply Hin. simpl. auto. }
  destruct (getitem (span_flags sp) (str "flags")) as [fl|e1] eqn:Eflags; simpl in H.
  2: { injection H as <-. apply getitem_Raise in Eflags. eexists. split; [|exact Eflags].
       apply Hin. simpl. auto 6. }
  destruct (getitem (span_text sp) (str "text")) as [tx|e1] eqn:Etext; simpl in H.
  2: { injection H as <-. apply getitem_Raise in Etext. eexists. split; [|exact Etext].
       apply Hin. simpl. auto 7. }
  discriminate.
Qed.

(** The profiler returns exactly when every block has ['type'], every text
    block ['lines'], every line of one ['spans'] and every span of one
    ['size'], ['flags'] and ['text']; otherwise it raises [KeyError] for one
    of these keys, and no other exception. *)
Theorem profiler_needs_its_keys (p : page) :
  ((exists r, determine_font_styles p = Ok r) <-> well_formed (get_text p) = true) /\
  (forall e,
     determine_font_styles p = Raise e ->
     well_formed (get_text p) = false /\
     exists key, key ∈ profiler_keys /\ e = KeyError key).
Proof.
  split.
  - split.
    + intros [r H]. apply determine_font_styles_Ok in H as [H _]. exact H.
    + intros H. rewrite (determine_font_styles_wf p H). eauto.
  - intros e H. split.
    + destruct (well_formed (get_text p)) eqn:Hwf; [|reflexivity].
      rewrite (determine_font_styles_wf p Hwf) in H. discriminate.
    + unfold determine_font_styles in H.
      destruct (is_nil (get_text p)); [discriminate|].
      destruct (foldM sizes_block (get_text p) []) as [sizes|e1] eqn:Esizes.
      * exfalso. apply all_sizes_Ok in Esizes as [Hwf _].
        cbn [mbind result_bind bind] in H.
        destruct (is_nil sizes); [discriminate|].
        rewrite (size_counts_Ok _ [] Hwf) in H. cbn [mbind result_bind bind] in H.
        destruct (is_nil _); discriminate.
      * cbn [mbind result_bind bind] in H. injection H as <-.
        apply foldM_Raise in Esizes as (acc & b & Hb).
        apply (sizes_block_Raise _ _ _ Hb).
Qed.

Lemma foldM_skip {A B} (f : A -> B -> result A) (l : list B) (a : A) :
  (forall x, x ∈ l -> f a x = Ok a) -> foldM f l a = Ok a.
Proof.
  induction l as [|x l IH]; intros Hf; simpl; [reflexivity|].
  rewrite Hf by (apply elem_of_cons; auto). simpl.
  apply IH. intros y Hy. apply Hf, elem_of_cons. auto.
Qed.

(** A document none of whose pages holds a span in a text block gives no
    fragment at all. *)
Theorem document_without_text_is_empty (doc : list page) :
  Forall (fun p => well_formed (get_text p) = true /\ text_spans (get_text p) = []) doc ->
  convert_pdf_to_markdown doc = Ok [].
Proof.
  intros Hdoc. unfold convert_pdf_to_markdown, run.
  rewrite foldM_skip; [reflexivity|].
  intros [i p] Hin. apply elem_of_zip_r in Hin.
  rewrite Forall_forall in Hdoc. destruct (Hdoc p Hin) as [Hwf Hspans].
  unfold process_page. rewrite (determine_font_styles_wf p Hwf). unfold profile.
  rewrite Hspans. reflexivity.
Qed.

Lemma document_without_text_is_empty_witness :
  convert_pdf_to_markdown [image_page; mk_page []] = Ok [].
Proof.
  apply (document_without_text_is_empty [image_page; mk_page []]).
  repeat constructor.
Defined.

(** ** A block set in one size *)

Lemma py_round_Qeq (x y : Q) : (x == y)%Q -> py_round x = py_round y.
Proof.
  intros H. unfold py_round. rewrite (Qfloor_comp x y H).
  assert (x - inject_Z (Qfloor y) == y - inject_Z (Qfloor y))%Q as H'
    by (rewrite H; reflexivity).
  rewrite (Qcompare_comp _ _ H' (1 # 2) (1 # 2) (Qeq_refl _)). reflexivity.
Qed.

Lemma Zsum_scale (s : Z) (f : span -> Z) (size : span -> Z) (spans : list span) :
  Forall (fun sp => size sp = s) spans ->
  Zsum (map (fun sp => size sp * f sp) spans) = s * Zsum (map f spans).
Proof.
  induction spans as [|sp spans IH]; intros H; simpl; [lia|].
  apply Forall_cons in H as [-> H]. rewrite (IH H). lia.
Qed.

(** A block whose spans all have the same rounded size (the body size
    standing for a missing one) and whose texts hold at least one character
    has that size as its average: it is a heading exactly when that size is
    a heading size. *)
Theorem homogeneous_block_average (body s : Z) (b : block) :
  Forall (fun sp => py_round (get (span_size sp) (inject_Z body)) = s) (block_spans b) ->
  0 < Zsum (map (fun sp => Z.of_nat (raw_length sp)) (block_spans b)) ->
  block_avg_size body (collect_block body b) = s.
Proof.
  intros Hall Hchars. rewrite collect_block_spec. unfold block_avg_size.
  cbn [span_count total_size].
  apply Z.ltb_lt in Hchars as Hlt. rewrite Hlt.
  rewrite (Zsum_scale s (fun sp => Z.of_nat (raw_length sp))
             (fun sp => part_size (make_part body sp)) _ Hall).
  set (L := Zsum _) in *. clearbody L.
  rewrite <- (py_round_integer s) at 2. apply py_round_Qeq.
  rewrite inject_Z_mult. field. intros H0.
  unfold Qeq, inject_Z in H0. simpl in H0. lia.
Qed.

Lemma homogeneous_block_average_witness :
  block_avg_size 10 (collect_block 10 (mk_block [[mk_span "Big " (47 # 2) 0];
                                                 [mk_span "title" 24 16]] 0 30)) = 24.
Proof.
  apply (homogeneous_block_average 10 24).
  - vm_compute. repeat constructor.
  - vm_compute. reflexivity.
Defined.

(** ** Ties between sizes *)

Lemma most_common1_first c m :
  most_common1 c = Some m ->
  exists c1 c2,
    c = c1 ++ m :: c2 /\
    (forall kv, kv ∈ c1 -> (kv.2 < m.2)%nat) /\
    (forall kv, kv ∈ c2 -> (kv.2 <= m.2)%nat).
Proof.
  unfold most_common1. revert m. induction c as [|kv c IH] using rev_ind; intros m.
  - discriminate.
  - rewrite fold_left_app. simpl.
    pose proof (fold_first_max_spec c None) as Hspec.
    destruct (fold_left first_max c None) as [b|] eqn:E; simpl.
    + destruct Hspec as (_ & _ & Hmax).
      destruct (Nat.ltb_spec b.2 kv.2) as [Hlt|Hge]; intros [= <-].
      * exists c, []. split; [reflexivity|]. split.
        -- intros x Hx. specialize (Hmax x Hx). lia.
        -- intros x Hx. apply elem_of_nil in Hx as [].
      * destruct (IH b eq_refl) as (c1 & c2 & -> & H1 & H2).
        exists c1, (c2 ++ [kv]). rewrite <- app_assoc. split; [reflexivity|].
        split; [exact H1|]. intros x Hx. apply elem_of_app in Hx as [Hx|Hx]; [auto|].
        apply list_elem_of_singleton in Hx as ->. exact Hge.
    + destruct Hspec as [_ ->]. intros [= <-]. exists [], [].
      split; [reflexivity|]. split; intros x Hx; apply elem_of_nil in Hx as [].
Qed.

Lemma keys_add_order c k w :
  map fst (counter_add c k w) =
  if decide (k ∈ map fst c) then map fst c else map fst c ++ [k].
Proof.
  induction c as [|[k0 n] c IH].
  - destruct (decide (k ∈ map fst [])) as [H|_]; [|reflexivity].
    apply elem_of_nil in H as [].
  - cbn [counter_add]. destruct (Z.eqb_spec k k0) as [->|Hne]; cbn [map fst].
    + destruct (decide (k0 ∈ k0 :: map fst c)) as [_|H]; [reflexivity|].
      exfalso. apply H, elem_of_cons. auto.
    + rewrite IH. destruct (decide (k ∈ map fst c)) as [Hin|Hnin].
      * destruct (decide (k ∈ k0 :: map fst c)) as [_|H]; [reflexivity|].
        exfalso. apply H, elem_of_cons. auto.
      * destruct (decide (k ∈ k0 :: map fst c)) as [H|_]; [|reflexivity].
        apply elem_of_cons in H as [?|?]; congruence.
Qed.

Lemma keys_fold_extends spans c :
  exists ks, map fst (fold_left add_span spans c) = map fst c ++ ks.
Proof.
  revert c; induction spans as [|sp spans IH]; intros c; simpl.
  - exists []. rewrite app_nil_r. reflexivity.
  - destruct (IH (add_span c sp)) as [ks ->]. unfold add_span.
    rewrite keys_add_order. destruct (decide _); [eauto|].
    rewrite <- app_assoc. eauto.
Qed.

Lemma NoDup_split_unique {A} (l1 l2 l1' l2' : list A) (x : A) :
  NoDup (l1 ++ x :: l2) -> l1 ++ x :: l2 = l1' ++ x :: l2' -> l1 = l1'.
Proof.
  revert l1'; induction l1 as [|a l1 IH]; intros l1' Hnd Heq.
  - destruct l1' as [|a' l1']; [reflexivity|]. simpl in *. injection Heq as <- Heq.
    apply NoDup_cons in Hnd as [Hx _]. exfalso. apply Hx. rewrite Heq.
    apply elem_of_app. right. apply elem_of_cons. auto.
  - simpl in *. apply NoDup_cons in Hnd as [Ha Hnd].
    destruct l1' as [|a' l1']; simpl in Heq.
    + injection Heq as -> _. exfalso. apply Ha.
      apply elem_of_app. right. apply elem_of_cons. auto.
    + injection Heq as <- Heq. f_equal. apply (IH _ Hnd Heq).
Qed.

(** When several sizes have the largest weight, the body size is the one
    met first: every span that comes before the first span of the body size
    has a size of strictly smaller weight. *)
Theorem body_size_is_first_of_heaviest
    (p : page) (body : Z) (hl : gmap Z nat) (pre post : list span) (sp : span) :
  determine_font_styles p = Ok (Some body, hl) ->
  text_spans (get_text p) = pre ++ sp :: post ->
  rounded_size sp = body ->
  Forall (fun q => rounded_size q <> body) pre ->
  Forall (fun q => (weight (get_text p) (rounded_size q) < weight (get_text p) body)%nat) pre.
Proof.
  intros H Hspans Hsp Hpre. apply determine_font_styles_Ok in H as [_ H].
  set (bs := get_text p) in *.
  assert (text_spans bs <> []) as Hne by (rewrite Hspans; destruct pre; discriminate).
  unfold profile in H. rewrite (is_nil_false _ Hne) in H. injection H as -> _.
  apply spec_weight_table_not_nil in Hne.
  destruct (most_common1_spec _ Hne) as ([b n] & Hm & Hin & _).
  assert (spec_body_size bs = b) as Hb by (unfold spec_body_size; rewrite Hm; reflexivity).
  rewrite Hb in *.
  destruct (most_common1_first _ _ Hm) as (c1 & c2 & Hc & Hlt & _).
  pose proof (NoDup_weight_table bs) as Hnd.
  (* the keys met before the body size are those of [pre] *)
  assert (exists ks, map fst (spec_weight_table bs) =
                     map fst (fold_left add_span pre []) ++ b :: ks) as [ks Hkeys].
  { unfold spec_weight_table. rewrite Hspans, fold_left_app. simpl.
    destruct (keys_fold_extends post (add_span (fold_left add_span pre []) sp)) as [ks ->].
    unfold add_span at 1. rewrite keys_add_order, Hsp.
    rewrite decide_False.
    - rewrite <- app_assoc. eauto.
    - rewrite keys_fold. simpl. rewrite elem_of_nil. intros [[]|Hin'].
      apply list_elem_of_fmap in Hin' as (q & Hq & Hqin).
      rewrite Forall_forall in Hpre. apply (Hpre q Hqin). congruence. }
  assert (map fst c1 = map fst (fold_left add_span pre [])) as Hc1.
  { rewrite Hc, map_app in Hkeys. simpl in Hkeys.
    apply (NoDup_split_unique _ (map fst c2) _ ks b); [|exact Hkeys].
    rewrite Hc, map_app in Hnd. exact Hnd. }
  apply Forall_forall. intros q Hq.
  assert (rounded_size q ∈ map fst c1) as Hk.
  { rewrite Hc1, keys_fold. right. apply list_elem_of_fmap. eauto. }
  apply list_elem_of_fmap in Hk as ([k w] & Hkq & Hkv). simpl in Hkq. subst k.
  rewrite !weight_count_of.
  rewrite (count_of_NoDup _ b n Hnd Hin).
  rewrite (count_of_NoDup _ (rounded_size q) w Hnd).
  - apply (Hlt _ Hkv).
  - rewrite Hc. apply elem_of_app. auto.
Qed.

Lemma body_size_is_first_of_heaviest_witness :
  Forall (fun q => (weight (get_text sample_page) (rounded_size q) <
                    weight (get_text sample_page) 10)%nat)
         [mk_span "Title" 24 16].
Proof.
  apply (body_size_is_first_of_heaviest sample_page 10
           (<[14 := 3%nat]> (<[18 := 2%nat]> (<[24 := 1%nat]> ∅)))
           [mk_span "Title" 24 16]
           [mk_span "Sub" 18 0; mk_span " x " 14 0; mk_span "yy" 13 0]
           (mk_span "Hello world, this is body" (21 # 2) 0)).
  - vm_compute. reflexivity.
  - reflexivity.
  - vm_compute. reflexivity.
  - repeat constructor. vm_compute. discriminate.
Defined.

(** ** Blank fragments and the final text *)

Lemma collapse_from_skip x n Y :
  collapse_from n (x ++ 10%N :: 10%N :: 10%N :: Y) =
  collapse_from n (x ++ 10%N :: 10%N :: Y).
Proof.
  revert n; induction x as [|c x IH]; intros n.
  - destruct n as [|[|n]]; reflexivity.
  - simpl. destruct (c =? 10)%N; [destruct (n <? 2)%nat|]; rewrite IH; reflexivity.
Qed.

Lemma collapse_from_leading X n m :
  exists a b r,
    collapse_from n X = replicate a 10%N ++ r /\
    collapse_from m X = replicate b 10%N ++ r.
Proof.
  revert n m; induction X as [|c X IH]; intros n m; simpl.
  - exists 0%nat, 0%nat, []. auto.
  - destruct (N.eqb_spec c 10) as [->|Hc].
    + destruct (n <? 2)%nat, (m <? 2)%nat.
      * destruct (IH (S n) (S m)) as (a & b & r & -> & ->). exists (S a), (S b), r. auto.
      * destruct (IH (S n) m) as (a & b & r & -> & ->). exists (S a), b, r. auto.
      * destruct (IH n (S m)) as (a & b & r & -> & ->). exists a, (S b), r. auto.
      * apply IH.
    + exists 0%nat, 0%nat, (c :: collapse_from 0 X). auto.
Qed.

Lemma collapse_from_newlines k n Y :
  exists a n', collapse_from n (replicate k 10%N ++ Y) = replicate a 10%N ++ collapse_from n' Y.
Proof.
  revert n; induction k as [|k IH]; intros n; simpl.
  - exists 0%nat, n. reflexivity.
  - destruct (n <? 2)%nat.
    + destruct (IH (S n)) as (a & n' & ->). exists (S a), n'. reflexivity.
    + apply IH.
Qed.

Lemma collapse_from_snoc_newline n s :
  exists w, collapse_from n (s ++ nl) = collapse_from n s ++ w /\
            forallb isspace w = true.
Proof.
  unfold nl. revert n; induction s as [|c s IH]; intros n; simpl.
  - destruct (n <? 2)%nat; [exists [10%N] | exists []]; auto.
  - destruct (c =? 10)%N; [destruct (n <? 2)%nat|];
      match goal with |- context [collapse_from ?k (s ++ _)] =>
        destruct (IH k) as (w & -> & Hw) end; exists w; auto.
Qed.

Lemma lstrip_replicate_newline a r : lstrip (replicate a 10%N ++ r) = lstrip r.
Proof. induction a as [|a IH]; [reflexivity | exact IH]. Qed.

Lemma strip_app_blank_r t ws : forallb isspace ws = true -> strip (t ++ ws) = strip t.
Proof.
  intros Hws. unfold strip, rstrip.
  destruct (lstrip t) as [|c t'] eqn:E.
  - apply lstrip_nil in E. rewrite (lstrip_app_blank t ws E).
    apply lstrip_nil in Hws. rewrite Hws. reflexivity.
  - assert (lstrip (t ++ ws) = (c :: t') ++ ws) as ->.
    { clear Hws. revert E. induction t as [|d t IH]; simpl; [discriminate|].
      destruct (isspace d); [exact IH | intros [= -> ->]; reflexivity]. }
    rewrite rev_app_distr, lstrip_app_blank by (rewrite forallb_rev; exact Hws).
    reflexivity.
Qed.

Lemma final_drop_newline (P X : text) :
  (exists k, P = replicate k 10%N) \/ (exists P', P = P' ++ [10%N; 10%N]) ->
  strip (collapse_newlines (P ++ 10%N :: X)) = strip (collapse_newlines (P ++ X)).
Proof.
  unfold collapse_newlines. intros [[k ->]|[P' ->]].
  - destruct (collapse_from_newlines k 0 (10%N :: X)) as (a1 & n1 & ->).
    destruct (collapse_from_newlines k 0 X) as (a2 & n2 & ->).
    assert (exists a n, collapse_from n1 (10%N :: X) = replicate a 10%N ++ collapse_from n X)
      as (a & n & ->).
    { simpl. destruct (n1 <? 2)%nat; [exists 1%nat, (S n1) | exists 0%nat, n1]; reflexivity. }
    destruct (collapse_from_leading X n n2) as (b1 & b2 & r & -> & ->).
    unfold strip. rewrite !lstrip_replicate_newline. reflexivity.
  - rewrite <- !app_assoc. simpl. rewrite collapse_from_skip. reflexivity.
Qed.

Lemma final_strips_blank_fragments (P : text) (out : list text) :
  (exists k, P = replicate k 10%N) \/ (exists P', P = P' ++ [10%N; 10%N]) ->
  Forall fragment_ok out ->
  strip (collapse_newlines (P ++ concat (map (fun f => f ++ nl) out))) =
  strip (collapse_newlines
           (P ++ concat (map (fun f => f ++ nl) (filter (fun f => f <> []) out)))).
Proof.
  revert P; induction out as [|f out IH]; intros P HP Hout; [reflexivity|].
  apply Forall_cons in Hout as [Hf Hout]. rewrite filter_cons.
  destruct (decide (f <> [])) as [Hne|He].
  - destruct Hf as [->|Hlast]; [congruence|].
    apply last_Some in Hlast as [f' ->]. cbn [map concat].
    rewrite !app_assoc. apply IH; [|exact Hout].
    right. exists (P ++ f'). rewrite <- !app_assoc. reflexivity.
  - assert (f = []) as -> by (destruct f; [reflexivity | exfalso; apply He; discriminate]).
    cbn [map concat app]. change (nl ++ ?x) with (10%N :: x).
    rewrite (final_drop_newline P _ HP). apply IH; assumption.
Qed.

Lemma join_nl_concat (out : list text) :
  out <> [] -> join nl out ++ nl = concat (map (fun f => f ++ nl) out).
Proof.
  induction out as [|f out IH]; [congruence|]. intros _.
  destruct out as [|g out]; [simpl; rewrite app_nil_r; reflexivity|].
  change (join nl (f :: g :: out)) with (f ++ nl ++ join nl (g :: out)).
  change (concat (map (fun f => f ++ nl) (f :: g :: out)))
    with ((f ++ nl) ++ concat (map (fun f => f ++ nl) (g :: out))).
  rewrite <- IH by discriminate. rewrite <- !app_assoc. reflexivity.
Qed.

Lemma final_markdown_concat (out : list text) :
  final_markdown out = strip (collapse_newlines (concat (map (fun f => f ++ nl) out))).
Proof.
  unfold final_markdown. destruct out as [|f out]; [reflexivity|].
  rewrite <- join_nl_concat by discriminate. unfold collapse_newlines.
  destruct (collapse_from_snoc_newline 0 (join nl (f :: out))) as (w & -> & Hw).
  rewrite (strip_app_blank_r _ w Hw). reflexivity.
Qed.

(** The blank fragments make no difference to the text that is written: when
    every other fragment ends with a newline, as the fragments of a run do,
    two fragments are set apart by one empty line whether or not a blank
    fragment stands between them. *)
Theorem blank_fragments_do_not_show :
  (forall out,
     Forall fragment_ok out ->
     final_markdown out = final_markdown (filter (fun f => f <> []) out)) /\
  (forall doc out,
     convert_pdf_to_markdown doc = Ok out ->
     final_markdown out = final_markdown (filter (fun f => f <> []) out)).
Proof.
  assert (forall out, Forall fragment_ok out ->
            final_markdown out = final_markdown (filter (fun f => f <> []) out)) as H.
  { intros out Hout. rewrite !final_markdown_concat.
    apply (final_strips_blank_fragments [] out); [|exact Hout].
    left. exists 0%nat. reflexivity. }
  split; [exact H|]. intros doc out Hrun. apply H, (convert_fragments_ok doc), Hrun.
Qed.

Lemma blank_fragments_do_not_show_witness :
  final_markdown [page_marker 0; str "Intro" ++ nl; []; str "World" ++ nl] =
  final_markdown (filter (fun f => f <> [])
                         [page_marker 0; str "Intro" ++ nl; []; str "World" ++ nl]).
Proof.
  apply (proj2 blank_fragments_do_not_show [spaced_page]).
  vm_compute. reflexivity.
Defined.

(** ** Blocks that do not start below the previous one *)

(** With a body size that is not negative, a block whose top edge is not
    below [last_block_bottom] (the first block of a new page, a block of a
    second column) never breaks the paragraph. *)
Theorem no_break_without_gap
    (pn i : nat) (body : Z) (b : block) (st : state) :
  0 <= body ->
  (y0 (get (block_bbox b) zero_bbox) <= last_block_bottom st)%Q ->
  paragraph_spacing pn i body b st = Ok st.
Proof.
  intros Hbody Htop. unfold paragraph_spacing.
  destruct (_ || _); [|reflexivity].
  destruct (gap_significant _ _ _) eqn:Hgap; [|reflexivity].
  exfalso. apply gap_significant_spec in Hgap.
  assert (0 <= inject_Z body)%Q as Hb by (unfold Qle; simpl; lia).
  assert (0 <= inject_Z body * (7 # 10))%Q as Hprod
    by (apply Qmult_le_0_compat; [exact Hb | discriminate]).
  lra.
Qed.

Lemma no_break_without_gap_witness :
  paragraph_spacing 1 0 10 (mk_block [[mk_span "Top" 10 0]] 20 30)
                    (State [page_marker 0; str "x" ++ nl; page_marker 1] [] 700) =
  Ok (State [page_marker 0; str "x" ++ nl; page_marker 1] [] 700).
Proof.
  apply (no_break_without_gap 1 0 10).
  - lia.
  - vm_compute. discriminate.
Defined.
